(** * SLEAP: timeline slider and stride padding

    A shallow embedding of the value/selection/mark bookkeeping of
    [sleap/gui/slider.py] (class [VideoSlider]) and of
    [find_padding_for_stride] and [pad_to_stride] from
    [sleap/nn/data/resizing.py], followed by the properties established
    about them.

    Conventions of the embedding:
    - frame indices (slider values, mark positions, selection endpoints) are
      Python ints, modelled as [Z];
    - pixel coordinates are Python floats; they are modelled by exact
      rationals [Q], so rounding error of the floating-point unit is not part
      of the model, while division by zero (which Python reports as
      [ZeroDivisionError] for floats as well) is;
    - a Python exception is an explicit [Raise] result; the attributes as they
      stand at the moment it is raised are not kept;
    - the widget's attributes are the fields of the record [VideoSlider], and
      every method takes the state and returns the new one;
    - calls into the GUI toolkit are recorded by the arguments they are given
      (item rectangles, emitted signals) and not interpreted further. *)

From Stdlib Require Import ZArith QArith Qround Qminmax Lia Lqa.
From Equations Require Import Equations.
From stdpp Require Import base option list gmap fin_maps.

Local Open Scope Z_scope.

(** ** Python semantics used by the sources *)

Module Py.

Inductive PyError : Set :=
| ZeroDivisionError
| IndexError
| ValueError
| TypeError
| OverflowError.

Inductive result (A : Type) : Type :=
| Ok (a : A)
| Raise (e : PyError).
Arguments Ok {A} a.
Arguments Raise {A} e.

#[export] Instance result_ret : MRet result := fun _ a => Ok a.
#[export] Instance result_bind : MBind result := fun _ _ f m =>
  match m with
  | Ok a => f a
  | Raise e => Raise e
  end.

(** [a % b] on ints: the result has the sign of the divisor, as [Z.modulo]. *)
Definition py_mod (a b : Z) : result Z :=
  if Z.eqb b 0 then Raise ZeroDivisionError else Ok (a mod b).

(** [a // b] on ints: floor division, as [Z.div]. *)
Definition py_floordiv (a b : Z) : result Z :=
  if Z.eqb b 0 then Raise ZeroDivisionError else Ok (a / b).

(** [a / b] on floats. *)
Definition py_truediv (a b : Q) : result Q :=
  if Qeq_bool b 0 then Raise ZeroDivisionError else Ok (a / b)%Q.

(** [round(q)]: nearest integer, ties to the even neighbour. *)
Definition py_round (q : Q) : Z :=
  let f := Qfloor q in
  match Qcompare (q - inject_Z f) (1 # 2) with
  | Lt => f
  | Gt => f + 1
  | Eq => if Z.even f then f else f + 1
  end.

(** [list(range(start, stop, step))]. *)
Definition py_range (start stop step : Z) : result (list Z) :=
  if Z.eqb step 0 then Raise ValueError
  else
    let n := if Z.ltb 0 step
             then (stop - start + step - 1) / step
             else (start - stop - step - 1) / (- step) in
    Ok ((fun i => start + i * step) <$> seqZ 0 (Z.max 0 n)).

(** [a, b = l[-2:]]: the last two items, [ValueError] unless the slice has
    exactly two. *)
Fixpoint last_two {A} (l : list A) : result (A * A) :=
  match l with
  | [a; b] => Ok (a, b)
  | _ :: (_ :: _ :: _) as tl => last_two tl
  | _ => Raise ValueError
  end.

(** [l.pop()]. *)
Definition pop {A} (l : list A) : result (list A) :=
  match l with
  | [] => Raise IndexError
  | _ => Ok (removelast l)
  end.

Section SortByKey.
Context {A K : Type} (le : K -> K -> bool) (key : A -> K).

Fixpoint insert_by_key (x : A) (l : list A) : list A :=
  match l with
  | [] => [x]
  | y :: l' => if le (key x) (key y) then x :: l else y :: insert_by_key x l'
  end.

(** [l.sort(key=key)]: a stable sort. *)
Definition sort_by_key (l : list A) : list A :=
  foldr insert_by_key [] l.
End SortByKey.

End Py.
Import Py.

(** ** [sleap/nn/data/resizing.py] *)

Module Resizing.

Definition find_padding_for_stride
    (image_height image_width max_stride : Z) : result (Z * Z) :=
  hm ← py_mod image_height max_stride;
  pad_bottom ← py_mod (max_stride - hm) max_stride;
  wm ← py_mod image_width max_stride;
  pad_right ← py_mod (max_stride - wm) max_stride;
  mret (pad_bottom, pad_right).

End Resizing.

(** ** [sleap/gui/slider.py] *)

Module Slider.

(** *** [SliderMark] *)

Inductive MarkType : Set :=
| Simple | Filled | Open | Predicted | Track | Tick | TickColumn.

#[export] Instance MarkType_eq_dec : EqDecision MarkType.
Proof. solve_decision. Defined.

(** [val] is the beginning of the mark, [end_val] the (exclusive) end of a
    ["track"] mark and [row] its lane; both default to [None]. Marks are
    compared and hashed by identity ([cmp=False]): wherever the widget
    stores marks they are keyed by the object's identity, a [positive]. *)
Record SliderMark : Set := {
  type : MarkType;
  val : Z;
  end_val : option Z;
  row : option Z
}.

Definition filled (m : SliderMark) : bool :=
  if decide (type m = Open) then false else true.

Definition top_pad (m : SliderMark) : Z :=
  if decide (type m = TickColumn) then 40
  else if decide (type m = Tick) then 0
  else 2.

Definition bottom_pad (m : SliderMark) : Z :=
  if decide (type m = TickColumn) then 200
  else if decide (type m = Tick) then 0
  else 2.

Definition visual_width (m : SliderMark) : Z :=
  match type m with
  | Open | Filled | Tick => 2
  | TickColumn => 1
  | _ => 0
  end.

Definition get_height (m : SliderMark) (container_height : Q) : Q :=
  if decide (type m = Track) then 2%Q
  else (container_height - inject_Z (top_pad m + bottom_pad m))%Q.

(** *** Scene items and signals, as far as the widget sets them *)

Record QRectF : Set := { rect_width : Q; rect_height : Q }.

(** The rectangle of a mark: [addRect(x, y, w, h)], [setPos(pos_x, 0)],
    brush and z value. *)
Record RectItem : Set := {
  item_x : Z;
  item_y : Z;
  item_w : Q;
  item_h : Q;
  item_pos_x : Q;
  item_filled : bool;
  item_z : Z
}.

(** The selection box: [QRect(x, y, w, h)] and whether it is shown. *)
Record BoxItem : Set := {
  box_x : Q;
  box_y : Z;
  box_w : Q;
  box_h : Q;
  box_visible : bool
}.

Inductive Signal : Set :=
| valueChanged (v : Z)
| selectionChanged (a b : Z).

(** *** [VideoSlider] *)

Record VideoSlider : Type := {
  _val_min : Z;
  _val_max : Z;
  _val_main : Z;
  _selection : list Z;
  _marks : gmap positive SliderMark;
  _mark_items : gmap positive (SliderMark * RectItem);
  _mark_labels : gmap positive (SliderMark * Z);
  _tick_marks : list (positive * SliderMark);
  _box_rect : QRectF;
  handle_width : Q;
  handle_x : Q;
  select_box : BoxItem;
  _header_height : Z;
  _track_height : Z;
  _max_tracks_stacked : Z;
  _track_stack_skip_count : Z;
  widget_width : Z;
  emitted : list Signal;
  next_id : positive
}.

Definition set_val_min (x : Z) (s : VideoSlider) : VideoSlider :=
  {| _val_min := x; _val_max := _val_max s; _val_main := _val_main s;
     _selection := _selection s; _marks := _marks s;
     _mark_items := _mark_items s; _mark_labels := _mark_labels s;
     _tick_marks := _tick_marks s; _box_rect := _box_rect s;
     handle_width := handle_width s; handle_x := handle_x s;
     select_box := select_box s; _header_height := _header_height s;
     _track_height := _track_height s;
     _max_tracks_stacked := _max_tracks_stacked s;
     _track_stack_skip_count := _track_stack_skip_count s;
     widget_width := widget_width s; emitted := emitted s;
     next_id := next_id s |}.

Definition set_val_max (x : Z) (s : VideoSlider) : VideoSlider :=
  {| _val_min := _val_min s; _val_max := x; _val_main := _val_main s;
     _selection := _selection s; _marks := _marks s;
     _mark_items := _mark_items s; _mark_labels := _mark_labels s;
     _tick_marks := _tick_marks s; _box_rect := _box_rect s;
     handle_width := handle_width s; handle_x := handle_x s;
     select_box := select_box s; _header_height := _header_height s;
     _track_height := _track_height s;
     _max_tracks_stacked := _max_tracks_stacked s;
     _track_stack_skip_count := _track_stack_skip_count s;
     widget_width := widget_width s; emitted := emitted s;
     next_id := next_id s |}.

Definition set_val_main (x : Z) (s : VideoSlider) : VideoSlider :=
  {| _val_min := _val_min s; _val_max := _val_max s; _val_main := x;
     _selection := _selection s; _marks := _marks s;
     _mark_items := _mark_items s; _mark_labels := _mark_labels s;
     _tick_marks := _tick_marks s; _box_rect := _box_rect s;
     handle_width := handle_width s; handle_x := handle_x s;
     select_box := select_box s; _header_height := _header_height s;
     _track_height := _track_height s;
     _max_tracks_stacked := _max_tracks_stacked s;
     _track_stack_skip_count := _track_stack_skip_count s;
     widget_width := widget_width s; emitted := emitted s;
     next_id := next_id s |}.

Definition set_selection (x : list Z) (s : VideoSlider) : VideoSlider :=
  {| _val_min := _val_min s; _val_max := _val_max s;
     _val_main := _val_main s; _selection := x; _marks := _marks s;
     _mark_items := _mark_items s; _mark_labels := _mark_labels s;
     _tick_marks := _tick_marks s; _box_rect := _box_rect s;
     handle_width := handle_width s; handle_x := handle_x s;
     select_box := select_box s; _header_height := _header_height s;
     _track_height := _track_height s;
     _max_tracks_stacked := _max_tracks_stacked s;
     _track_stack_skip_count := _track_stack_skip_count s;
     widget_width := widget_width s; emitted := emitted s;
     next_id := next_id s |}.

Definition set_marks (x : gmap positive SliderMark) (s : VideoSlider) : VideoSlider :=
  {| _val_min := _val_min s; _val_max := _val_max s;
     _val_main := _val_main s; _selection := _selection s; _marks := x;
     _mark_items := _mark_items s; _mark_labels := _mark_labels s;
     _tick_marks := _tick_marks s; _box_rect := _box_rect s;
     handle_width := handle_width s; handle_x := handle_x s;
     select_box := select_box s; _header_height := _header_height s;
     _track_height := _track_height s;
     _max_tracks_stacked := _max_tracks_stacked s;
     _track_stack_skip_count := _track_stack_skip_count s;
     widget_width := widget_width s; emitted := emitted s;
     next_id := next_id s |}.

Definition set_mark_items (x : gmap positive (SliderMark * RectItem)) (s : VideoSlider) : VideoSlider :=
  {| _val_min := _val_min s; _val_max := _val_max s;
     _val_main := _val_main s; _selection := _selection s;
     _marks := _marks s; _mark_items := x; _mark_labels := _mark_labels s;
     _tick_marks := _tick_marks s; _box_rect := _box_rect s;
     handle_width := handle_width s; handle_x := handle_x s;
     select_box := select_box s; _header_height := _header_height s;
     _track_height := _track_height s;
     _max_tracks_stacked := _max_tracks_stacked s;
     _track_stack_skip_count := _track_stack_skip_count s;
     widget_width := widget_width s; emitted := emitted s;
     next_id := next_id s |}.

Definition set_mark_labels (x : gmap positive (SliderMark * Z)) (s : VideoSlider) : VideoSlider :=
  {| _val_min := _val_min s; _val_max := _val_max s;
     _val_main := _val_main s; _selection := _selection s;
     _marks := _marks s; _mark_items := _mark_items s; _mark_labels := x;
     _tick_marks := _tick_marks s; _box_rect := _box_rect s;
     handle_width := handle_width s; handle_x := handle_x s;
     select_box := select_box s; _header_height := _header_height s;
     _track_height := _track_height s;
     _max_tracks_stacked := _max_tracks_stacked s;
     _track_stack_skip_count := _track_stack_skip_count s;
     widget_width := widget_width s; emitted := emitted s;
     next_id := next_id s |}.

Definition set_tick_marks (x : list (positive * SliderMark)) (s : VideoSlider) : VideoSlider :=
  {| _val_min := _val_min s; _val_max := _val_max s;
     _val_main := _val_main s; _selection := _selection s;
     _marks := _marks s; _mark_items := _mark_items s;
     _mark_labels := _mark_labels s; _tick_marks := x;
     _box_rect := _box_rect s; handle_width := handle_width s;
     handle_x := handle_x s; select_box := select_box s;
     _header_height := _header_height s; _track_height := _track_height s;
     _max_tracks_stacked := _max_tracks_stacked s;
     _track_stack_skip_count := _track_stack_skip_count s;
     widget_width := widget_width s; emitted := emitted s;
     next_id := next_id s |}.

Definition set_handle_x (x : Q) (s : VideoSlider) : VideoSlider :=
  {| _val_min := _val_min s; _val_max := _val_max s;
     _val_main := _val_main s; _selection := _selection s;
     _marks := _marks s; _mark_items := _mark_items s;
     _mark_labels := _mark_labels s; _tick_marks := _tick_marks s;
     _box_rect := _box_rect s; handle_width := handle_width s;
     handle_x := x; select_box := select_box s;
     _header_height := _header_height s; _track_height := _track_height s;
     _max_tracks_stacked := _max_tracks_stacked s;
     _track_stack_skip_count := _track_stack_skip_count s;
     widget_width := widget_width s; emitted := emitted s;
     next_id := next_id s |}.

Definition set_select_box (x : BoxItem) (s : VideoSlider) : VideoSlider :=
  {| _val_min := _val_min s; _val_max := _val_max s;
     _val_main := _val_main s; _selection := _selection s;
     _marks := _marks s; _mark_items := _mark_items s;
     _mark_labels := _mark_labels s; _tick_marks := _tick_marks s;
     _box_rect := _box_rect s; handle_width := handle_width s;
     handle_x := handle_x s; select_box := x;
     _header_height := _header_height s; _track_height := _track_height s;
     _max_tracks_stacked := _max_tracks_stacked s;
     _track_stack_skip_count := _track_stack_skip_count s;
     widget_width := widget_width s; emitted := emitted s;
     next_id := next_id s |}.

Definition set_emitted (x : list Signal) (s : VideoSlider) : VideoSlider :=
  {| _val_min := _val_min s; _val_max := _val_max s;
     _val_main := _val_main s; _selection := _selection s;
     _marks := _marks s; _mark_items := _mark_items s;
     _mark_labels := _mark_labels s; _tick_marks := _tick_marks s;
     _box_rect := _box_rect s; handle_width := handle_width s;
     handle_x := handle_x s; select_box := select_box s;
     _header_height := _header_height s; _track_height := _track_height s;
     _max_tracks_stacked := _max_tracks_stacked s;
     _track_stack_skip_count := _track_stack_skip_count s;
     widget_width := widget_width s; emitted := x; next_id := next_id s |}.

Definition set_next_id (x : positive) (s : VideoSlider) : VideoSlider :=
  {| _val_min := _val_min s; _val_max := _val_max s;
     _val_main := _val_main s; _selection := _selection s;
     _marks := _marks s; _mark_items := _mark_items s;
     _mark_labels := _mark_labels s; _tick_marks := _tick_marks s;
     _box_rect := _box_rect s; handle_width := handle_width s;
     handle_x := handle_x s; select_box := select_box s;
     _header_height := _header_height s; _track_height := _track_height s;
     _max_tracks_stacked := _max_tracks_stacked s;
     _track_stack_skip_count := _track_stack_skip_count s;
     widget_width := widget_width s; emitted := emitted s; next_id := x |}.
(** **** Value and pixel position *)

(** [_sliderWidth]: the visual width of the slider. *)
Definition _sliderWidth (s : VideoSlider) : Q :=
  (rect_width (_box_rect s) - handle_width s)%Q.

(** [value_range]. *)
Definition value_range (s : VideoSlider) : Z := _val_max s - _val_min s.

Definition _toPos (s : VideoSlider) (v : Q) (center : bool) : result Q :=
  let x := v in
  let x := (x - inject_Z (_val_min s))%Q in
  x ← py_truediv x (inject_Z (Z.max 1 (_val_max s - _val_min s)));
  let x := (x * _sliderWidth s)%Q in
  let x := if center then (x + handle_width s / 2)%Q else x in
  mret x.

(** The argument [center] is accepted and not used, as in the source. *)
Definition _toVal (s : VideoSlider) (x : Q) (center : bool) : result Z :=
  let v := x in
  v ← py_truediv v (_sliderWidth s);
  let v := (v * inject_Z (Z.max 1 (_val_max s - _val_min s)))%Q in
  let v := (v + inject_Z (_val_min s))%Q in
  mret (py_round v).

Definition slider_visible_value_range (s : VideoSlider) : result Z :=
  _toVal s (inject_Z (widget_width s - 1)) false.

Definition value (s : VideoSlider) : Z := _val_main s.

(** [ensureVisible] only scrolls the view and is left out. *)
Definition setValue (s : VideoSlider) (v : Z) : result VideoSlider :=
  let s := set_val_main v s in
  x ← _toPos s (inject_Z v) false;
  mret (set_handle_x x s).

Definition setMinimum (s : VideoSlider) (min : Z) : VideoSlider :=
  set_val_min min s.

Definition setMaximum (s : VideoSlider) (max : Z) : VideoSlider :=
  set_val_max max s.

(** **** Selection *)

Definition hide (b : BoxItem) : BoxItem :=
  {| box_x := box_x b; box_y := box_y b; box_w := box_w b; box_h := box_h b;
     box_visible := false |}.

Definition clearSelection (s : VideoSlider) : VideoSlider :=
  set_select_box (hide (select_box s)) (set_selection [] s).

Definition startSelection (s : VideoSlider) (v : Z) : VideoSlider :=
  set_selection (_selection s ++ [v]) s.

Definition getSelection (s : VideoSlider) : result (Z * Z) :=
  ab ← (if Nat.even (length (_selection s)) && (0 <? length (_selection s))%nat
        then last_two (_selection s)
        else mret (0, 0));
  let start := Z.min ab.1 ab.2 in
  let end_ := Z.max ab.1 ab.2 in
  mret (start, end_).

Definition hasSelection (s : VideoSlider) : result bool :=
  ab ← getSelection s;
  mret (ab.1 <? ab.2).

(** [updateSelectionBoxPositions(self.select_box, a, b)]. *)
Definition drawSelection (s : VideoSlider) (a b : Z) : result VideoSlider :=
  let start := Z.min a b in
  let end_ := Z.max a b in
  start_pos ← _toPos s (inject_Z start) true;
  end_pos ← _toPos s (inject_Z end_) true;
  let box_rect :=
    {| box_x := start_pos; box_y := _header_height s;
       box_w := (end_pos - start_pos)%Q;
       box_h := rect_height (_box_rect s);
       box_visible := true |} in
  mret (set_select_box box_rect s).

Definition endSelection (s : VideoSlider) (v : Z) (update : bool)
    : result VideoSlider :=
  sel ← (if update && Nat.even (length (_selection s))
         then pop (_selection s)
         else mret (_selection s));
  let s := set_selection (sel ++ [v]) s in
  ab ← last_two (_selection s);
  s ← (if Z.eqb ab.1 ab.2 then mret (clearSelection s)
       else drawSelection s ab.1 ab.2);
  cur ← getSelection s;
  mret (set_emitted (emitted s ++ [selectionChanged cur.1 cur.2]) s).

Definition setSelection (s : VideoSlider) (start_val end_val : Z)
    : result VideoSlider :=
  let s := startSelection s start_val in
  endSelection s end_val true.

(** **** Track rows *)

Definition getTrackColRow (s : VideoSlider) (raw_row : Z) : result (Z * Z) :=
  if raw_row <? _max_tracks_stacked s then mret (0, raw_row)
  else
    let rows_after_first_col := raw_row - _max_tracks_stacked s in
    let rows_per_later_cols :=
      _max_tracks_stacked s - _track_stack_skip_count s in
    rows_down ← py_mod rows_after_first_col rows_per_later_cols;
    q ← py_floordiv rows_after_first_col rows_per_later_cols;
    let col := q + 1 in
    mret (col, rows_down).

Definition getTrackVerticalPos (s : VideoSlider) (col row : Z) : Z :=
  if Z.eqb col 0 then row * _track_height s
  else _track_height s * _track_stack_skip_count s + _track_height s * row.

Definition isNewColTrack (s : VideoSlider) (row : Z) : result bool :=
  cr ← getTrackColRow s row;
  mret (Z.eqb cr.2 0).

(** **** Marks *)

Fixpoint mapM_r {A B} (f : A -> result B) (l : list A) : result (list B) :=
  match l with
  | [] => mret []
  | x :: l' => y ← f x; ys ← mapM_r f l'; mret (y :: ys)
  end.

Fixpoint foldlM_r {A B} (f : A -> B -> result A) (a : A) (l : list B)
    : result A :=
  match l with
  | [] => mret a
  | x :: l' => a' ← f a x; foldlM_r f a' l'
  end.

(** The marks of [self._marks], in the order the set is iterated. *)
Definition marks_of (s : VideoSlider) : list SliderMark :=
  (map_to_list (_marks s)).*2.

(** One round of the loop of [updatePos]: width, position and height of the
    item of [mark]. The position of the text label depends on the width of
    the rendered text and is left out. *)
Definition update_item (s : VideoSlider) (mi : SliderMark * RectItem)
    : result (SliderMark * RectItem) :=
  let '(mark, item) := mi in
  width ← (if decide (type mark = Track) then
             match end_val mark with
             | Some e =>
                 let width_in_frames := e - val mark in
                 p ← _toPos s (inject_Z width_in_frames) false;
                 mret (Qmax 2 p)
             | None => Raise TypeError
             end
           else mret (inject_Z (visual_width mark)));
  x ← _toPos s (inject_Z (val mark)) true;
  let h := get_height mark
             (rect_height (_box_rect s) - inject_Z (_header_height s))%Q in
  mret (mark,
        {| item_x := item_x item; item_y := item_y item;
           item_w := width; item_h := h; item_pos_x := x;
           item_filled := item_filled item; item_z := item_z item |}).

Definition updatePos (s : VideoSlider) : result VideoSlider :=
  x ← _toPos s (inject_Z (value s)) false;
  let s := set_handle_x x s in
  items ← mapM_r (fun kv : positive * (SliderMark * RectItem) =>
                    it ← update_item s kv.2; mret (kv.1, it))
                 (map_to_list (_mark_items s));
  mret (set_mark_items (list_to_map items) s).

Definition addMark (s : VideoSlider) (new_mark : positive * SliderMark)
    (update : bool) : result VideoSlider :=
  let '(id, m) := new_mark in
  if val m >? _val_max s then mret s
  else if val m <? _val_min s then mret s
  else
    let s := set_marks (<[id := m]> (_marks s)) s in
    let v_top_pad := _header_height s + 1 in
    let v_top_pad := v_top_pad + top_pad m in
    let width := visual_width m in
    v_offset ← (if decide (type m = Track) then
                  match row m with
                  | Some r =>
                      cr ← getTrackColRow s r;
                      mret (v_top_pad + getTrackVerticalPos s cr.1 cr.2)
                  | None => Raise TypeError
                  end
                else mret v_top_pad);
    let height := get_height m
             (rect_height (_box_rect s) - inject_Z (_header_height s))%Q in
    let is_tick := bool_decide (type m = Tick) in
    let line :=
      {| item_x := (- width) / 2; item_y := v_offset;
         item_w := inject_Z width; item_h := height; item_pos_x := 0;
         item_filled := filled m;
         item_z := if is_tick then 0 else 1 |} in
    let s := set_mark_items (<[id := (m, line)]> (_mark_items s)) s in
    let s := if is_tick
             then set_mark_labels
                    (<[id := (m, val m + 1)]> (_mark_labels s)) s
             else s in
    if update then updatePos s else mret s.

Definition removeMark (s : VideoSlider) (mark : positive) : VideoSlider :=
  let s := set_mark_labels (delete mark (_mark_labels s)) s in
  let s := set_mark_items (delete mark (_mark_items s)) s in
  set_marks (delete mark (_marks s)) s.

(** **** Tick marks *)

(** The loop [while val_range // val_order > 24: val_order *= 10].
    [val_order] starts at 10 and is only ever multiplied by 10, hence a
    [positive]; the quotient shrinks at every round, which bounds the loop. *)
Equations? tick_order (val_range : Z) (val_order : positive) : positive
  by wf (Z.to_nat (val_range / Z.pos val_order)) lt :=
  tick_order val_range val_order
    with decide (val_range / Z.pos val_order > 24) => {
    | left _ := tick_order val_range (val_order * 10);
    | right _ := val_order }.
Proof.
  rewrite Pos2Z.inj_mul, <- Z.div_div by lia.
  assert (val_range / Z.pos val_order / 10 < val_range / Z.pos val_order)
    by (apply Z.div_lt; lia).
  assert (0 <= val_range / Z.pos val_order / 10)
    by (apply Z.div_pos; lia).
  lia.
Qed.

(** Fresh [SliderMark] objects: identities are handed out in sequence. *)
Fixpoint new_marks (n : positive) (l : list SliderMark)
    : list (positive * SliderMark) :=
  match l with
  | [] => []
  | m :: l' => (n, m) :: new_marks (Pos.succ n) l'
  end.

Definition tick_mark (tick_pos : Z) : SliderMark :=
  {| type := Tick; val := tick_pos; end_val := None; row := None |}.

Definition _add_tick_marks (s : VideoSlider) : result VideoSlider :=
  val_range ← slider_visible_value_range s;
  let val_order := Z.pos (tick_order val_range 10) in
  positions ← py_range (_val_min s + val_order - 1) (_val_max s) val_order;
  let ticks := new_marks (next_id s) (tick_mark <$> positions) in
  let s := set_tick_marks ticks s in
  let s := set_next_id (Nat.iter (length ticks) Pos.succ (next_id s)) s in
  foldlM_r (fun s tick_mark => addMark s tick_mark false) s (_tick_marks s).

(** **** Contiguously marked values *)

(** A generator expression [(f(mark) for mark in marks if c(mark))], run to
    the end: [g] gives [None] for a mark that the condition rejects. *)
Fixpoint collect {A B} (g : A -> result (option B)) (l : list A)
    : result (list B) :=
  match l with
  | [] => mret []
  | x :: l' =>
      o ← g x;
      ys ← collect g l';
      mret (match o with Some y => y :: ys | None => ys end)
  end.

(** [any(c(mark) for mark in marks)]: stops at the first [True]. *)
Fixpoint any_r {A} (c : A -> result bool) (l : list A) : result bool :=
  match l with
  | [] => mret false
  | x :: l' => b ← c x; if b : bool then mret true else any_r c l'
  end.

(** [min(xs, default=d)] and [max(xs, default=d)]. *)
Definition min_default (xs : list Z) (d : Z) : Z :=
  match xs with
  | [] => d
  | x :: xs' => foldl Z.min x xs'
  end.

Definition max_default (xs : list Z) (d : Z) : Z :=
  match xs with
  | [] => d
  | x :: xs' => foldl Z.max x xs'
  end.

(** [lo <= v < mark.end_val], given that the left comparison is [lo_ok]:
    the chain stops there when it fails, and comparing with an [end_val]
    of [None] raises. *)
Definition chain_end (lo_ok : bool) (m : SliderMark) (c : Z -> bool)
    : result bool :=
  if lo_ok then
    match end_val m with
    | Some e => mret (c e)
    | None => Raise TypeError
    end
  else mret false.

Definition isMarkedVal (s : VideoSlider) (v : Z) : result bool :=
  if bool_decide (v ∈ val <$> marks_of s) then mret true
  else
    b ← any_r (fun mark => chain_end (val mark <=? v) mark (fun e => v <? e))
              (filter (fun mark => type mark = Track) (marks_of s));
    if b : bool then mret true else mret false.

Definition decrementContiguousMarkedVal (s : VideoSlider) (v : Z)
    : result Z :=
  starts ← collect
    (fun mark =>
       if decide (type mark = Track) then
         b ← chain_end (val mark <? v) mark (fun e => v <=? e);
         mret (if b : bool then Some (val mark) else None)
       else mret None)
    (marks_of s);
  let dec_val := min_default starts v in
  if dec_val <? v then mret dec_val
  else if bool_decide (v - 1 ∈ val <$> marks_of s) then mret (v - 1)
  else mret v.

Definition incrementContiguousMarkedVal (s : VideoSlider) (v : Z)
    : result Z :=
  ends ← collect
    (fun mark =>
       if decide (type mark = Track) then
         b ← chain_end (val mark <=? v) mark (fun e => v <? e);
         if b : bool then
           match end_val mark with
           | Some e => mret (Some (e - 1))
           | None => Raise TypeError
           end
         else mret None
       else mret None)
    (marks_of s);
  let inc_val := max_default ends v in
  if inc_val >? v then mret inc_val
  else if bool_decide (v + 1 ∈ val <$> marks_of s) then mret (v + 1)
  else mret v.

(** The loop of [getStartContiguousMark], entered with [last_val] and
    [dec_val]. *)
Equations? start_loop (s : VideoSlider) (last_val dec_val : Z) : result Z
  by wf (Z.to_nat (last_val - _val_min s)) lt :=
  start_loop s last_val dec_val
    with decide (dec_val < last_val /\ dec_val > _val_min s) => {
    | left _ with decrementContiguousMarkedVal s dec_val => {
        | Ok d := start_loop s dec_val d;
        | Raise e := Raise e };
    | right _ := Ok dec_val }.
Proof. lia. Qed.

Definition getStartContiguousMark (s : VideoSlider) (v : Z) : result Z :=
  let last_val := v in
  dec_val ← decrementContiguousMarkedVal s last_val;
  start_loop s last_val dec_val.

(** The loop of [getEndContiguousMark]. *)
Equations? end_loop (s : VideoSlider) (last_val inc_val : Z) : result Z
  by wf (Z.to_nat (_val_max s - last_val)) lt :=
  end_loop s last_val inc_val
    with decide (inc_val > last_val /\ inc_val < _val_max s) => {
    | left _ with incrementContiguousMarkedVal s inc_val => {
        | Ok i := end_loop s inc_val i;
        | Raise e := Raise e };
    | right _ := Ok inc_val }.
Proof. lia. Qed.

Definition getEndContiguousMark (s : VideoSlider) (v : Z) : result Z :=
  let last_val := v in
  inc_val ← incrementContiguousMarkedVal s last_val;
  end_loop s last_val inc_val.

Definition contiguousSelectionMarksAroundVal (s : VideoSlider) (v : Z)
    : result VideoSlider :=
  marked ← isMarkedVal s v;
  if negb marked then mret s
  else
    dec_val ← getStartContiguousMark s v;
    inc_val ← getEndContiguousMark s v;
    setSelection s dec_val inc_val.

(** **** Handle *)

(** Order on the sort keys [(abs(m - val), m > val)]. *)
Definition key_le (k1 k2 : Z * bool) : bool :=
  (k1.1 <? k2.1) || ((k1.1 =? k2.1) && implb k1.2 k2.2).

Definition moveHandle (s : VideoSlider) (x y : Q) : result VideoSlider :=
  let x := (x - handle_width s / 2)%Q in
  let x := Qmax x 0 in
  let x := Qmin x (rect_width (_box_rect s) - handle_width s)%Q in
  v ← _toVal s x false;
  let mark_vals := val <$> marks_of s in
  handle_left ← _toVal s (x - handle_width s / 2)%Q false;
  handle_right ← _toVal s (x + handle_width s / 2)%Q false;
  let marks_in_handle :=
    filter (fun mark => handle_left < mark < handle_right) mark_vals in
  let v :=
    match sort_by_key key_le (fun m => (Z.abs (m - v), m >? v))
                      marks_in_handle with
    | m :: _ => m
    | [] => v
    end in
  let old := value s in
  s ← setValue s v;
  if negb (Z.eqb old v)
  then mret (set_emitted (emitted s ++ [valueChanged (_val_main s)]) s)
  else mret s.

(** **** States *)

(** The attributes as [__init__] leaves them before any mark is set, for a
    widget of the given value range and value whose outline box is [box_w]
    wide: no selection, no marks, a handle of width 6, a header of height 20,
    tracks of height 5 stacked 120 to a column with 10 rows skipped. *)
Definition init (min max v : Z) (box_w : Q) (w : Z) : VideoSlider :=
  {| _val_min := min; _val_max := max; _val_main := v;
     _selection := [];
     _marks := ∅; _mark_items := ∅; _mark_labels := ∅; _tick_marks := [];
     _box_rect := {| rect_width := box_w; rect_height := 36 |};
     handle_width := 6; handle_x := 0;
     select_box := {| box_x := 0; box_y := 1; box_w := 0; box_h := 34;
                      box_visible := false |};
     _header_height := 20; _track_height := 5;
     _max_tracks_stacked := 120; _track_stack_skip_count := 10;
     widget_width := w; emitted := []; next_id := 1 |}.

Definition track_mark (start stop r : Z) : SliderMark :=
  {| type := Track; val := start; end_val := Some stop; row := Some r |}.

Definition simple_mark (v : Z) : SliderMark :=
  {| type := Simple; val := v; end_val := None; row := None |}.

(** **** Dragging a selection *)

(** [l[-1]]. *)
Definition last_item (l : list Z) : result Z :=
  match last l with
  | Some x => Ok x
  | None => Raise IndexError
  end.

Definition moveSelectionAnchor (s : VideoSlider) (x y : Q)
    : result VideoSlider :=
  let x := Qmax x 0 in
  let x := Qmin x (rect_width (_box_rect s)) in
  anchor_val ← _toVal s x true;
  let s := if Nat.even (length (_selection s))
           then startSelection s anchor_val
           else s in
  e ← last_item (_selection s);
  drawSelection s anchor_val e.

Definition releaseSelectionAnchor (s : VideoSlider) (x y : Q)
    : result VideoSlider :=
  let x := Qmax x 0 in
  let x := Qmin x (rect_width (_box_rect s)) in
  anchor_val ← _toVal s x false;
  endSelection s anchor_val false.

(** **** Replacing the marks *)

(** The scene items of the marks are those held in [_mark_items] and
    [_mark_labels]; removing them from the scene is emptying the maps. *)
Definition clearMarks (s : VideoSlider) : VideoSlider :=
  let s := set_marks ∅ s in
  let s := set_mark_items ∅ s in
  set_mark_labels ∅ s.

(** An item of the iterable given to [setMarks]: a [SliderMark] object, or
    a bare value, for which a ["simple"] mark is created. *)
Inductive MarkArg : Set :=
| GivenMark (mark : positive * SliderMark)
| RawValue (v : Z).

Definition setMarks (s : VideoSlider) (marks : option (list MarkArg))
    : result VideoSlider :=
  let s := clearMarks s in
  s ← _add_tick_marks s;
  s ← match marks with
      | Some marks =>
          foldlM_r
            (fun s mark =>
               match mark with
               | GivenMark mark => addMark s mark false
               | RawValue v =>
                   let mark := (next_id s, simple_mark v) in
                   let s := set_next_id (Pos.succ (next_id s)) s in
                   addMark s mark false
               end)
            s marks
      | None => mret s
      end;
  updatePos s.


Definition _clear_tick_marks (s : VideoSlider) : VideoSlider :=
  foldl (fun s mark => removeMark s mark.1) s (_tick_marks s).

Definition setTickMarks (s : VideoSlider) : result VideoSlider :=
  let s := _clear_tick_marks s in
  _add_tick_marks s.

(** **** Heights *)

(** The widget together with the two attributes that only the height
    computation reads: the number of track rows and the minimal height. *)
Record SliderLayout : Type := {
  widget : VideoSlider;
  _track_rows : Z;
  _min_height : Z
}.

Definition getMinMaxHeights (l : SliderLayout) : Z * Z :=
  let tracks := _track_rows l in
  if Z.eqb tracks 0 then (_min_height l, _min_height l)
  else
    let extra_height := 8 + _header_height (widget l) in
    let min_height := extra_height in
    let max_height := extra_height in
    let min_height := min_height + _track_height (widget l) * Z.min tracks 20 in
    let max_height :=
      max_height
      + _track_height (widget l) * Z.min tracks (_max_tracks_stacked (widget l)) in
    let min_height := Z.max (_min_height l) min_height in
    let max_height := Z.max (_min_height l) max_height in
    (min_height, max_height).

Definition getMarkAreaHeight (l : SliderLayout) : Z :=
  let max_height := (getMinMaxHeights l).2 in
  max_height - 3 - _header_height (widget l).

Definition _handleTop (s : VideoSlider) : Z := 1 + _header_height s.

Definition _handleHeight (l : SliderLayout) : Z := getMarkAreaHeight l.

End Slider.

(** ** Image tensors of [sleap/nn/data/resizing.py] *)

Module Images.

(** A tensor of shape [(dim0, dim1, dim2)], height by width by channels: its
    rows, each a list of pixels, each a list of channel values. *)
Record Tensor3 (V : Type) : Type := {
  dim0 : Z;
  dim1 : Z;
  dim2 : Z;
  data : list (list (list V))
}.
Arguments dim0 {V} _.
Arguments dim1 {V} _.
Arguments dim2 {V} _.
Arguments data {V} _.

(** The lists agree with the shape. *)
Definition well_shaped {V} (t : Tensor3 V) : Prop :=
  0 <= dim1 t /\ 0 <= dim2 t /\
  Z.of_nat (length (data t)) = dim0 t /\
  forall row, row ∈ data t ->
    Z.of_nat (length row) = dim1 t /\
    forall px, px ∈ row -> Z.of_nat (length px) = dim2 t.

(** [t[i, j, k]]. *)
Definition at_index {V} (t : Tensor3 V) (i j k : nat) : option V :=
  row ← data t !! i; px ← row !! j; px !! k.

(** [tf.pad(image, [[0, pad_bottom], [0, pad_right], [0, 0]],
    mode="CONSTANT", constant_values=zero)]; negative paddings are refused. *)
Definition tf_pad {V} (zero : V) (image : Tensor3 V) (pad_bottom pad_right : Z)
    : result (Tensor3 V) :=
  if (pad_bottom <? 0) || (pad_right <? 0) then Raise ValueError
  else
    let px := replicate (Z.to_nat (dim2 image)) zero in
    let rows :=
      (fun row => row ++ replicate (Z.to_nat pad_right) px) <$> data image in
    let below :=
      replicate (Z.to_nat pad_bottom)
                (replicate (Z.to_nat (dim1 image + pad_right)) px) in
    Ok {| dim0 := dim0 image + pad_bottom;
          dim1 := dim1 image + pad_right;
          dim2 := dim2 image;
          data := rows ++ below |}.

(** The shape is read with [tf.shape]. For a stride of at least 1 every
    intermediate value of [find_padding_for_stride] lies between 0 and the
    stride, so that the machine integers of the tensor library behave as
    [Z] there. *)
Definition pad_to_stride {V} (zero : V) (image : Tensor3 V) (max_stride : Z)
    : result (Tensor3 V) :=
  pads ← Resizing.find_padding_for_stride (dim0 image) (dim1 image) max_stride;
  let '(pad_bottom, pad_right) := pads in
  if (pad_bottom >? 0) || (pad_right >? 0)
  then tf_pad zero image pad_bottom pad_right
  else mret image.

(** A 2 by 3 image with one channel. *)
Definition sample_image : Tensor3 Z :=
  {| dim0 := 2; dim1 := 3; dim2 := 1;
     data := [[[1]; [2]; [3]]; [[4]; [5]; [6]]] |}.

End Images.

(** * Properties *)

(** ** The result monad and Python arithmetic *)

Section PyFacts.

Lemma bind_Ok {A B} (f : A -> result B) (a : A) : (Ok a ≫= f) = f a.
Proof. reflexivity. Qed.

Lemma py_mod_pos (a b : Z) : 0 < b -> py_mod a b = Ok (a mod b).
Proof.
  intros Hb. unfold py_mod.
  destruct (Z.eqb_spec b 0); [lia | reflexivity].
Qed.

Lemma py_floordiv_pos (a b : Z) : 0 < b -> py_floordiv a b = Ok (a / b).
Proof.
  intros Hb. unfold py_floordiv.
  destruct (Z.eqb_spec b 0); [lia | reflexivity].
Qed.

Lemma py_truediv_nonzero (a b : Q) :
  ~ (b == 0)%Q -> py_truediv a b = Ok (a / b)%Q.
Proof.
  intros Hb. unfold py_truediv.
  destruct (Qeq_bool b 0) eqn:E; [| reflexivity].
  apply Qeq_bool_iff in E. contradiction.
Qed.

Lemma py_truediv_zero (a b : Q) :
  (b == 0)%Q -> py_truediv a b = Raise ZeroDivisionError.
Proof.
  intros Hb. unfold py_truediv.
  apply Qeq_bool_iff in Hb. now rewrite Hb.
Qed.



(** Rounding stays between integer bounds. *)
Lemma py_round_between (a b : Z) (q : Q) :
  (inject_Z a <= q)%Q -> (q <= inject_Z b)%Q -> a <= py_round q <= b.
Proof.
  intros Ha Hb.
  assert (Hfa : a <= Qfloor q).
  { rewrite <- (Qfloor_Z a). now apply Qfloor_resp_le. }
  assert (Hfb : Qfloor q <= b).
  { rewrite <- (Qfloor_Z b). now apply Qfloor_resp_le. }
  unfold py_round.
  destruct (Qcompare_spec (q - inject_Z (Qfloor q)) (1 # 2)) as [E|E|E].
  - destruct (Z.even (Qfloor q)); [lia |].
    destruct (Z.eq_dec (Qfloor q) b) as [Eb|]; [| lia].
    exfalso. rewrite Eb in E. lra.
  - lia.
  - destruct (Z.eq_dec (Qfloor q) b) as [Eb|]; [| lia].
    exfalso. rewrite Eb in E. lra.
Qed.

End PyFacts.

(** ** Padding to a stride *)

Section Padding.

Variables (n stride : Z).
Hypothesis stride_pos : 1 <= stride.

(** The padding of one dimension is below the stride and completes the
    dimension to a multiple of it. *)
Lemma pad_completes :
  0 <= (stride - n mod stride) mod stride < stride /\
  (stride | n + (stride - n mod stride) mod stride).
Proof.
  split; [apply Z.mod_pos_bound; lia |].
  apply Z.mod_divide; [lia |].
  rewrite Zplus_mod, Zmod_mod, <- Zplus_mod.
  replace (n + (stride - n mod stride)) with (n - n mod stride + 1 * stride)
    by ring.
  rewrite Z_mod_plus_full, Zminus_mod, Zmod_mod, Z.sub_diag.
  apply Zmod_0_l.
Qed.

(** There is one such padding only. *)
Lemma pad_unique (x y : Z) :
  0 <= x < stride -> 0 <= y < stride ->
  (stride | n + x) -> (stride | n + y) -> x = y.
Proof.
  intros Hx Hy [kx Ex] [ky Ey].
  assert (E : x - y = (kx - ky) * stride) by lia.
  assert (kx - ky = 0) by nia.
  nia.
Qed.

End Padding.

(** C4: for positive height and width and a stride of at least 1,
    [find_padding_for_stride] returns the one pair of paddings that are
    non-negative, below the stride and complete height and width to multiples
    of the stride; for 17, 9 and stride 8 the pair is (7, 7). *)
Theorem find_padding_for_stride_minimal (h w stride : Z) :
  0 < h -> 0 < w -> 1 <= stride ->
  exists pad_bottom pad_right,
    Resizing.find_padding_for_stride h w stride = Ok (pad_bottom, pad_right) /\
    (0 <= pad_bottom < stride /\ (stride | h + pad_bottom)) /\
    (0 <= pad_right < stride /\ (stride | w + pad_right)) /\
    (forall pb pr,
        0 <= pb < stride -> 0 <= pr < stride ->
        (stride | h + pb) -> (stride | w + pr) ->
        pb = pad_bottom /\ pr = pad_right) /\
    Resizing.find_padding_for_stride 17 9 8 = Ok (7, 7).
Proof.
  intros Hh Hw Hs.
  exists ((stride - h mod stride) mod stride),
         ((stride - w mod stride) mod stride).
  pose proof (pad_completes h stride Hs) as [Bh Dh].
  pose proof (pad_completes w stride Hs) as [Bw Dw].
  split.
  { unfold Resizing.find_padding_for_stride.
    rewrite !py_mod_pos by lia. cbn.
    rewrite !py_mod_pos by lia. reflexivity. }
  repeat split; try tauto; try reflexivity.
  - eapply pad_unique; eauto.
  - eapply pad_unique; eauto.
Qed.

Lemma find_padding_for_stride_minimal_witness :
  exists pad_bottom pad_right,
    Resizing.find_padding_for_stride 33 20 16 = Ok (pad_bottom, pad_right) /\
    (0 <= pad_bottom < 16 /\ (16 | 33 + pad_bottom)) /\
    (0 <= pad_right < 16 /\ (16 | 20 + pad_right)) /\
    (forall pb pr,
        0 <= pb < 16 -> 0 <= pr < 16 ->
        (16 | 33 + pb) -> (16 | 20 + pr) ->
        pb = pad_bottom /\ pr = pad_right) /\
    Resizing.find_padding_for_stride 17 9 8 = Ok (7, 7).
Proof. apply (find_padding_for_stride_minimal 33 20 16); lia. Defined.

Import Slider.

(** ** Track rows *)

(** C5: with 120 rows stacked in a column and 10 rows skipped, a row below
    120 stays in column 0, and any other row goes to column
    [1 + (row - 120) // 110] at row [(row - 120) % 110]; row 125 is row 5 of
    column 1. *)
Theorem getTrackColRow_layout (s : VideoSlider) (raw_row : Z) :
  _max_tracks_stacked s = 120 -> _track_stack_skip_count s = 10 ->
  getTrackColRow s raw_row =
    Ok (if raw_row <? 120 then (0, raw_row)
        else (1 + (raw_row - 120) / 110, (raw_row - 120) mod 110)) /\
  getTrackColRow s 125 = Ok (1, 5).
Proof.
  intros Hmax Hskip. unfold getTrackColRow. rewrite Hmax, Hskip.
  split.
  - destruct (raw_row <? 120); [reflexivity |].
    rewrite py_mod_pos, py_floordiv_pos by lia. cbn.
    now rewrite Z.add_comm.
  - reflexivity.
Qed.

Lemma getTrackColRow_layout_witness :
  getTrackColRow (init 0 100 0 199 200) 350 =
    Ok (if 350 <? 120 then (0, 350)
        else (1 + (350 - 120) / 110, (350 - 120) mod 110)) /\
  getTrackColRow (init 0 100 0 199 200) 125 = Ok (1, 5).
Proof.
  apply (getTrackColRow_layout (init 0 100 0 199 200) 350); reflexivity.
Defined.

(** ** Marks outside the value range *)

(** C6: a mark whose start lies above the maximum or below the minimum is
    not added: [addMark] returns normally and leaves the mark set, and all
    the rest of the widget, as it was. *)
Theorem addMark_out_of_range_rejected
    (s : VideoSlider) (id : positive) (m : SliderMark) (update : bool) :
  val m > _val_max s \/ val m < _val_min s ->
  addMark s (id, m) update = Ok s.
Proof.
  intros H. unfold addMark.
  destruct (Z.gtb_spec (val m) (_val_max s)); [reflexivity |].
  destruct (Z.ltb_spec (val m) (_val_min s)); [reflexivity |].
  lia.
Qed.

Lemma addMark_out_of_range_rejected_witness :
  addMark (init 0 100 0 199 200) (1%positive, simple_mark (100 + 1)) true
  = Ok (init 0 100 0 199 200).
Proof.
  apply (addMark_out_of_range_rejected (init 0 100 0 199 200) 1
           (simple_mark (100 + 1)) true).
  left. reflexivity.
Defined.

(** ** Pixel positions *)

(** [_toPos] divides by a value range floored at 1 and always returns. *)
Lemma _toPos_Ok (s : VideoSlider) (v : Q) (center : bool) :
  1 <= Z.max 1 (_val_max s - _val_min s) /\
  exists p, _toPos s v center = Ok p /\
    (p == (v - inject_Z (_val_min s))
          / inject_Z (Z.max 1 (_val_max s - _val_min s)) * _sliderWidth s
          + (if center then handle_width s / 2 else 0))%Q.
Proof.
  split; [lia |].
  unfold _toPos. rewrite py_truediv_nonzero.
  - cbn. eexists. split; [reflexivity |].
    destruct center; ring.
  - intros E. assert (H : 1 <= Z.max 1 (_val_max s - _val_min s)) by lia.
    rewrite Zle_Qle in H. rewrite E in H. now apply Qle_bool_iff in H.
Qed.

(** ** Selection endpoints *)

Section Selection.

Lemma last_two_app {A} (l : list A) (a b : A) :
  last_two (l ++ [a; b]) = Ok (a, b).
Proof.
  induction l as [| x l IH]; [reflexivity |].
  cbn [app last_two]. destruct l as [| y l]; [reflexivity |].
  destruct l as [| z l]; exact IH.
Qed.

Lemma pop_app {A} (l : list A) (a : A) : pop (l ++ [a]) = Ok l.
Proof.
  unfold pop. rewrite removelast_last.
  now destruct l.
Qed.

Lemma even_length_snoc {A} (l : list A) (a : A) :
  Nat.even (length (l ++ [a])) = negb (Nat.even (length l)).
Proof.
  rewrite length_app, Nat.add_1_r, Nat.even_succ. symmetry.
  apply Nat.negb_even.
Qed.

(** An even and positive number of endpoints: the list ends with a pair. *)
Lemma even_pos_ends_with_pair {A} (l : list A) :
  Nat.even (length l) = true -> (0 < length l)%nat ->
  exists sel a b, l = sel ++ [a; b] /\ Nat.even (length sel) = true.
Proof.
  intros He Hp.
  destruct l as [| x l'] using rev_ind; [cbn in Hp; lia |].
  rewrite even_length_snoc in He.
  destruct l' as [| a sel] using rev_ind; [discriminate He |].
  rewrite even_length_snoc in He.
  exists sel, a, x. split.
  - now rewrite <- app_assoc.
  - now destruct (Nat.even (length sel)).
Qed.

Lemma getSelection_pair (s : VideoSlider) (sel : list Z) (a b : Z) :
  _selection s = sel ++ [a; b] -> Nat.even (length sel) = true ->
  getSelection s = Ok (Z.min a b, Z.max a b).
Proof.
  intros Hs He. unfold getSelection. rewrite Hs, last_two_app.
  replace (sel ++ [a; b]) with ((sel ++ [a]) ++ [b])
    by now rewrite <- app_assoc.
  rewrite !even_length_snoc, He, length_app. cbn [negb andb length].
  destruct (Nat.ltb_spec 0 (length (sel ++ [a]) + 1)); [reflexivity | lia].
Qed.

Lemma drawSelection_Ok (s : VideoSlider) (a b : Z) :
  exists box, drawSelection s a b = Ok (set_select_box box s).
Proof.
  unfold drawSelection.
  destruct (_toPos_Ok s (inject_Z (Z.min a b)) true) as [_ (p1 & -> & _)].
  destruct (_toPos_Ok s (inject_Z (Z.max a b)) true) as [_ (p2 & -> & _)].
  cbn. eauto.
Qed.

(** [endSelection] when the new endpoint completes a pair with [a]. *)
Lemma endSelection_pair (s : VideoSlider) (sel : list Z) (a v : Z) (update : bool) :
  (if update && Nat.even (length (_selection s))
   then pop (_selection s) else Ok (_selection s)) = Ok (sel ++ [a]) ->
  Nat.even (length sel) = true ->
  exists s',
    endSelection s v update = Ok s' /\
    _selection s' = (if Z.eqb a v then [] else sel ++ [a; v]) /\
    emitted s' =
      emitted s ++ [if Z.eqb a v then selectionChanged 0 0
                    else selectionChanged (Z.min a v) (Z.max a v)] /\
    _val_min s' = _val_min s /\ _val_max s' = _val_max s /\
    _val_main s' = _val_main s /\ _marks s' = _marks s.
Proof.
  intros Hsel He. unfold endSelection.
  change (@mret result _ _ (_selection s)) with (Ok (_selection s)).
  rewrite Hsel, bind_Ok. cbn [_selection set_selection].
  rewrite <- app_assoc. cbn [app]. rewrite last_two_app, bind_Ok.
  cbn [fst snd]. destruct (Z.eqb_spec a v) as [E | E].
  - cbn. eexists. repeat split; reflexivity.
  - destruct (drawSelection_Ok (set_selection (sel ++ [a; v]) s) a v)
      as [box ->].
    rewrite bind_Ok.
    erewrite getSelection_pair; [| reflexivity | exact He].
    cbn. eexists. repeat split; reflexivity.
Qed.

(** [setSelection] on two distinct values, from an even number of recorded
    endpoints. *)
Lemma setSelection_distinct (s : VideoSlider) (x y : Z) :
  x <> y -> Nat.even (length (_selection s)) = true ->
  exists s', setSelection s x y = Ok s' /\
             _selection s' = _selection s ++ [x; y] /\
             getSelection s' = Ok (Z.min x y, Z.max x y).
Proof.
  intros Hxy He. unfold setSelection.
  destruct (endSelection_pair (startSelection s x) (_selection s) x y true)
    as (s' & Hs' & Hsel & _); [| exact He |].
  - cbn [startSelection _selection set_selection].
    now rewrite even_length_snoc, He.
  - exists s'. split; [exact Hs' |].
    destruct (Z.eqb_spec x y); [contradiction |].
    split; [exact Hsel |].
    now apply (getSelection_pair s' (_selection s)).
Qed.

End Selection.

(** C8: from an even number of recorded endpoints, [setSelection(a, b)] with
    [a] and [b] distinct makes [getSelection()] return
    [(min(a, b), max(a, b))]; the two orders of the arguments give the same
    result, and 5 and 10 give (5, 10) in either order. *)
Theorem setSelection_getSelection (s : VideoSlider) (a b : Z) :
  a <> b -> Nat.even (length (_selection s)) = true ->
  (exists s', setSelection s a b = Ok s' /\
              getSelection s' = Ok (Z.min a b, Z.max a b)) /\
  (exists s', setSelection s b a = Ok s' /\
              getSelection s' = Ok (Z.min a b, Z.max a b)) /\
  (Z.min 5 10, Z.max 5 10) = (5, 10) /\ (Z.min 10 5, Z.max 10 5) = (5, 10).
Proof.
  intros Hab He.
  assert (Hset : forall x y, x <> y ->
            exists s', setSelection s x y = Ok s' /\
                       getSelection s' = Ok (Z.min x y, Z.max x y)).
  { intros x y Hxy.
    destruct (setSelection_distinct s x y Hxy He) as (s' & H1 & _ & H2).
    eauto. }
  split; [now apply Hset |].
  split; [| split; reflexivity].
  rewrite (Z.min_comm a b), (Z.max_comm a b). apply Hset. congruence.
Qed.

Lemma setSelection_getSelection_witness :
  (exists s', setSelection (init 0 100 0 199 200) 10 5 = Ok s' /\
              getSelection s' = Ok (Z.min 10 5, Z.max 10 5)) /\
  (exists s', setSelection (init 0 100 0 199 200) 5 10 = Ok s' /\
              getSelection s' = Ok (Z.min 10 5, Z.max 10 5)) /\
  (Z.min 5 10, Z.max 5 10) = (5, 10) /\ (Z.min 10 5, Z.max 10 5) = (5, 10).
Proof.
  apply (setSelection_getSelection (init 0 100 0 199 200) 10 5).
  - discriminate.
  - reflexivity.
Defined.

(** C7, as the code has it: with an even and positive number of recorded
    endpoints, ending with the pair [a, b], [endSelection(v, update=True)]
    with [v] different from [a] drops [b] and appends [v]: the number of
    endpoints is unchanged, the last pair is [a, v] and the selection is
    [(min(a, v), max(a, v))]; a second such call replaces the endpoint again
    and appends no third one. With [v] equal to [a] the selection is
    cleared. *)
Theorem endSelection_update_replaces (s : VideoSlider) (v : Z) :
  Nat.even (length (_selection s)) = true ->
  (0 < length (_selection s))%nat ->
  exists sel a b,
    _selection s = sel ++ [a; b] /\
    (v <> a ->
     exists s',
       endSelection s v true = Ok s' /\
       _selection s' = sel ++ [a; v] /\
       length (_selection s') = length (_selection s) /\
       getSelection s' = Ok (Z.min a v, Z.max a v) /\
       forall w, w <> a ->
         exists s'',
           endSelection s' w true = Ok s'' /\
           _selection s'' = sel ++ [a; w] /\
           length (_selection s'') = length (_selection s)) /\
    (v = a ->
     exists s', endSelection s v true = Ok s' /\ _selection s' = []).
Proof.
  intros He Hp.
  destruct (even_pos_ends_with_pair _ He Hp) as (sel & a & b & Hs & Hes).
  exists sel, a, b. split; [exact Hs |].
  assert (Hrep : forall (s0 : VideoSlider) (b0 w : Z),
            _selection s0 = sel ++ [a; b0] ->
            exists s1, endSelection s0 w true = Ok s1 /\
              _selection s1 = (if Z.eqb a w then [] else sel ++ [a; w])).
  { intros s0 b0 w Hs0.
    destruct (endSelection_pair s0 sel a w true) as (s1 & H1 & H2 & _);
      [| exact Hes | eauto].
    rewrite Hs0.
    replace (sel ++ [a; b0]) with ((sel ++ [a]) ++ [b0])
      by now rewrite <- app_assoc.
    now rewrite !even_length_snoc, Hes, pop_app. }
  split.
  - intros Hv. destruct (Hrep s b v Hs) as (s' & Hend & Hsel).
    destruct (Z.eqb_spec a v); [congruence |].
    exists s'. repeat split; try assumption.
    + rewrite Hsel, Hs, !length_app. reflexivity.
    + now apply (getSelection_pair s' sel).
    + intros w Hw. destruct (Hrep s' v w Hsel) as (s'' & Hend' & Hsel').
      destruct (Z.eqb_spec a w); [congruence |].
      exists s''. repeat split; try assumption.
      rewrite Hsel', Hs, !length_app. reflexivity.
  - intros Hv. destruct (Hrep s b v Hs) as (s' & Hend & Hsel).
    destruct (Z.eqb_spec a v); [| congruence].
    eauto.
Qed.

Lemma endSelection_update_replaces_witness :
  exists sel a b,
    _selection (set_selection [5; 10] (init 0 100 0 199 200))
      = sel ++ [a; b] /\
    (12 <> a ->
     exists s',
       endSelection (set_selection [5; 10] (init 0 100 0 199 200)) 12 true
         = Ok s' /\
       _selection s' = sel ++ [a; 12] /\
       length (_selection s') = 2%nat /\
       getSelection s' = Ok (Z.min a 12, Z.max a 12) /\
       forall w, w <> a ->
         exists s'',
           endSelection s' w true = Ok s'' /\
           _selection s'' = sel ++ [a; w] /\
           length (_selection s'') = 2%nat) /\
    (12 = a ->
     exists s',
       endSelection (set_selection [5; 10] (init 0 100 0 199 200)) 12 true
         = Ok s' /\ _selection s' = []).
Proof.
  apply (endSelection_update_replaces
           (set_selection [5; 10] (init 0 100 0 199 200)) 12).
  - reflexivity.
  - cbn. lia.
Defined.

(** C7, as stated, fails when the new endpoint equals the first endpoint of
    the pair: both endpoints are dropped. *)
Lemma endSelection_update_equal_clears :
  let s := set_selection [5; 10] (init 0 100 0 199 200) in
  Nat.even (length (_selection s)) = true /\
  (0 < length (_selection s))%nat /\
  exists s', endSelection s 5 true = Ok s' /\
             length (_selection s') <> length (_selection s) /\
             getSelection s' = Ok (0, 0).
Proof.
  cbn zeta. split; [reflexivity |]. split; [cbn; lia |].
  eexists. split; [reflexivity |]. split; [discriminate | reflexivity].
Qed.

(** ** Value and pixel position *)


Lemma _toVal_zero_width (s : VideoSlider) (x : Q) (center : bool) :
  (_sliderWidth s == 0)%Q -> _toVal s x center = Raise ZeroDivisionError.
Proof.
  intros H. unfold _toVal. now rewrite py_truediv_zero.
Qed.

Lemma _toVal_Ok (s : VideoSlider) (x : Q) (center : bool) :
  ~ (_sliderWidth s == 0)%Q ->
  _toVal s x center =
    Ok (py_round (x / _sliderWidth s
                  * inject_Z (Z.max 1 (_val_max s - _val_min s))
                  + inject_Z (_val_min s))).
Proof.
  intros H. unfold _toVal. now rewrite py_truediv_nonzero.
Qed.




(** C10: in a state whose outline box is as wide as the handle, and there
    are such states, [_toVal] raises [ZeroDivisionError] for every pixel
    position, whereas the divisor of [_toPos] is at least 1 and [_toPos]
    returns for every value. *)
Theorem toVal_unguarded_toPos_guarded (s : VideoSlider) :
  ((rect_width (_box_rect s) == handle_width s)%Q ->
   forall (x : Q) (center : bool),
     _toVal s x center = Raise ZeroDivisionError) /\
  (forall (v : Q) (center : bool),
     1 <= Z.max 1 (_val_max s - _val_min s) /\
     exists p, _toPos s v center = Ok p) /\
  (exists s0, (rect_width (_box_rect s0) == handle_width s0)%Q /\
     forall (x : Q) (center : bool),
       _toVal s0 x center = Raise ZeroDivisionError).
Proof.
  assert (H0 : forall s1, (rect_width (_box_rect s1) == handle_width s1)%Q ->
             forall x center, _toVal s1 x center = Raise ZeroDivisionError).
  { intros s1 H x center. apply _toVal_zero_width.
    unfold _sliderWidth. rewrite H. ring. }
  split; [apply H0 |]. split.
  - intros v center.
    destruct (_toPos_Ok s v center) as [H (p & Hp & _)]. eauto.
  - exists (init 0 100 0 6 8). split; [reflexivity |].
    apply H0. reflexivity.
Qed.

Lemma toVal_unguarded_toPos_guarded_witness :
  _toVal (init 0 20 15 6 8) 3 false = Raise ZeroDivisionError.
Proof.
  apply (proj1 (toVal_unguarded_toPos_guarded (init 0 20 15 6 8))).
  reflexivity.
Defined.

(** ** Contiguously marked values *)

Lemma start_loop_eq (s : VideoSlider) (last_val dec_val : Z) :
  start_loop s last_val dec_val =
    if decide (dec_val < last_val /\ dec_val > _val_min s)
    then d ← decrementContiguousMarkedVal s dec_val; start_loop s dec_val d
    else Ok dec_val.
Proof.
  simp start_loop. destruct (decide _); cbn; [| reflexivity].
  destruct (decrementContiguousMarkedVal s dec_val); reflexivity.
Qed.

Lemma end_loop_eq (s : VideoSlider) (last_val inc_val : Z) :
  end_loop s last_val inc_val =
    if decide (inc_val > last_val /\ inc_val < _val_max s)
    then i ← incrementContiguousMarkedVal s inc_val; end_loop s inc_val i
    else Ok inc_val.
Proof.
  simp end_loop. destruct (decide _); cbn; [| reflexivity].
  destruct (incrementContiguousMarkedVal s inc_val); reflexivity.
Qed.

(** The widget holds one mark, a track mark over [[a, e)]. *)
Section SingleTrack.

Variables (s : VideoSlider) (id : positive) (m : SliderMark) (a e : Z).
Hypothesis Hmarks : _marks s = {[ id := m ]}.
Hypothesis Htype : type m = Track.
Hypothesis Hval : val m = a.
Hypothesis Hend : end_val m = Some e.

Lemma marks_of_single : marks_of s = [m].
Proof. unfold marks_of. now rewrite Hmarks, map_to_list_singleton. Qed.

Lemma isMarkedVal_in_track (v : Z) : a <= v < e -> isMarkedVal s v = Ok true.
Proof.
  intros Hv. unfold isMarkedVal. rewrite marks_of_single.
  case_bool_decide; [reflexivity |].
  rewrite filter_cons_True, filter_nil by exact Htype.
  cbn. unfold chain_end. rewrite Hval, Hend.
  destruct (Z.leb_spec a v); [| lia]. cbn.
  destruct (Z.ltb_spec v e); [reflexivity | lia].
Qed.

Lemma decrement_in_track (v : Z) :
  a <= v <= e -> decrementContiguousMarkedVal s v = Ok a.
Proof.
  intros Hv. unfold decrementContiguousMarkedVal.
  rewrite marks_of_single. cbn [collect].
  destruct (decide (type m = Track)); [| contradiction].
  unfold chain_end. rewrite Hval, Hend.
  destruct (Z.ltb_spec a v).
  - destruct (Z.leb_spec v e); [| lia]. cbn.
    destruct (Z.ltb_spec a v); [reflexivity | lia].
  - assert (v = a) by lia. subst v. cbn.
    rewrite Z.ltb_irrefl.
    case_bool_decide as Hin; [| reflexivity].
    rewrite Hval in Hin. apply list_elem_of_singleton in Hin. lia.
Qed.

Lemma increment_in_track (v : Z) :
  a <= v < e -> incrementContiguousMarkedVal s v = Ok (e - 1).
Proof.
  intros Hv. unfold incrementContiguousMarkedVal.
  rewrite marks_of_single. cbn [collect].
  destruct (decide (type m = Track)); [| contradiction].
  unfold chain_end. rewrite Hval, Hend.
  destruct (Z.leb_spec a v); [| lia].
  destruct (Z.ltb_spec v e); [| lia]. cbn.
  destruct (Z.gtb_spec (e - 1) v); [reflexivity |].
  case_bool_decide as Hin.
  - rewrite Hval in Hin. apply list_elem_of_singleton in Hin. lia.
  - f_equal. lia.
Qed.

Lemma getStartContiguousMark_in_track (v : Z) :
  a <= v <= e -> getStartContiguousMark s v = Ok a.
Proof.
  intros Hv. unfold getStartContiguousMark.
  rewrite decrement_in_track, bind_Ok, start_loop_eq by exact Hv.
  destruct (decide _); [| reflexivity].
  rewrite decrement_in_track, bind_Ok, start_loop_eq by lia.
  destruct (decide _); [lia | reflexivity].
Qed.

Lemma getEndContiguousMark_in_track (v : Z) :
  a <= v < e -> getEndContiguousMark s v = Ok (e - 1).
Proof.
  intros Hv. unfold getEndContiguousMark.
  rewrite increment_in_track, bind_Ok, end_loop_eq by exact Hv.
  destruct (decide _); [| reflexivity].
  rewrite increment_in_track, bind_Ok, end_loop_eq by lia.
  destruct (decide _); [lia | reflexivity].
Qed.

(** The selection made around a value of the track: its first and its last
    covered value. *)
Lemma contiguousSelection_in_track (v : Z) :
  a <= v < e -> a <> e - 1 ->
  Nat.even (length (_selection s)) = true ->
  exists s', contiguousSelectionMarksAroundVal s v = Ok s' /\
             _selection s' = _selection s ++ [a; e - 1] /\
             getSelection s' = Ok (a, e - 1).
Proof.
  intros Hv Hne He. unfold contiguousSelectionMarksAroundVal.
  rewrite isMarkedVal_in_track, bind_Ok by exact Hv. cbn [negb].
  rewrite getStartContiguousMark_in_track, bind_Ok by lia.
  rewrite getEndContiguousMark_in_track, bind_Ok by lia.
  destruct (setSelection_distinct s a (e - 1) Hne He) as (s' & H1 & H2 & H3).
  exists s'. split; [exact H1 |]. split; [exact H2 |].
  rewrite H3. f_equal. f_equal; lia.
Qed.

End SingleTrack.

(** C2, as the code has it: with a single mark, a track mark from 20 to the
    exclusive end 30, a minimum below 20, a maximum above 30 and an even
    number of recorded selection endpoints,
    [contiguousSelectionMarksAroundVal] on a value [v] with [20 <= v < 30]
    selects from the first to the last value the track covers:
    [getSelection()] returns (20, 29). *)
Theorem contiguous_selection_around_track_value
    (s : VideoSlider) (id : positive) (m : SliderMark) (v : Z) :
  _marks s = {[ id := m ]} ->
  type m = Track -> val m = 20 -> end_val m = Some 30 ->
  _val_min s < 20 -> _val_max s > 30 ->
  20 <= v < 30 ->
  Nat.even (length (_selection s)) = true ->
  exists s', contiguousSelectionMarksAroundVal s v = Ok s' /\
             getSelection s' = Ok (20, 29).
Proof.
  intros Hmarks Htype Hval Hend _ _ Hv He.
  destruct (contiguousSelection_in_track s id m 20 30 Hmarks Htype Hval Hend v)
    as (s' & H1 & _ & H2); [exact Hv | lia | exact He |].
  eauto.
Qed.

Lemma contiguous_selection_around_track_value_witness :
  exists s',
    contiguousSelectionMarksAroundVal
      (set_marks {[ 7%positive := track_mark 20 30 0 ]}
                 (init 0 100 0 199 200)) 22 = Ok s' /\
    getSelection s' = Ok (20, 29).
Proof.
  apply (contiguous_selection_around_track_value
           (set_marks {[ 7%positive := track_mark 20 30 0 ]}
                      (init 0 100 0 199 200))
           7%positive (track_mark 20 30 0) 22);
    try reflexivity; cbn; lia.
Defined.

(** C2, as stated, fails: around 25, inside the only mark, a track mark from
    20 to the exclusive end 30, the selection is (20, 29) and not (20, 30). *)
Lemma contiguous_selection_not_exclusive_end :
  let s := set_marks {[ 7%positive := track_mark 20 30 0 ]}
                     (init 0 100 0 199 200) in
  _val_min s < 20 /\ _val_max s > 30 /\ 20 <= 25 < 30 /\
  exists s', contiguousSelectionMarksAroundVal s 25 = Ok s' /\
             getSelection s' = Ok (20, 29) /\
             getSelection s' <> Ok (20, 30).
Proof.
  cbn zeta. split; [cbn; lia |]. split; [cbn; lia |]. split; [lia |].
  eexists. split; [vm_compute; reflexivity |].
  split; [reflexivity | discriminate].
Qed.

(** ** Tick marks *)

Section Ticks.

(** The step found by the loop of [_add_tick_marks]: the first of
    [val_order], [10 * val_order], [100 * val_order], ... whose quotient is
    at most 24. *)
Lemma tick_order_spec (val_range : Z) (val_order : positive) :
  exists j : nat,
    Z.pos (tick_order val_range val_order)
      = Z.pos val_order * 10 ^ Z.of_nat j /\
    val_range / (Z.pos val_order * 10 ^ Z.of_nat j) <= 24 /\
    forall i : nat, (i < j)%nat ->
      val_range / (Z.pos val_order * 10 ^ Z.of_nat i) > 24.
Proof.
  funelim (tick_order val_range val_order); try clear Heqcall.
  - destruct H as (j & Hj & Hle & Hsmall).
    assert (E : forall i : nat,
               Z.pos (val_order * 10) * 10 ^ Z.of_nat i
               = Z.pos val_order * 10 ^ Z.of_nat (S i)).
    { intros i. rewrite Nat2Z.inj_succ, Z.pow_succ_r by lia. lia. }
    exists (S j). rewrite <- E. split; [exact Hj |]. split; [exact Hle |].
    intros [| i] Hi.
    + now rewrite Z.pow_0_r, Z.mul_1_r.
    + rewrite <- E. apply Hsmall. lia.
  - exists 0%nat. rewrite Z.pow_0_r, Z.mul_1_r.
    split; [reflexivity |]. split; [lia |]. intros i Hi. lia.
Qed.

(** [range] with a positive step: the values from [start] below [stop] that
    lie a multiple of [step] past [start], each once. *)
Lemma py_range_pos (start stop step : Z) :
  0 < step ->
  exists l, py_range start stop step = Ok l /\
    NoDup l /\
    forall p, p ∈ l <-> start <= p < stop /\ (step | p - start).
Proof.
  intros Hstep. unfold py_range.
  destruct (Z.eqb_spec step 0); [lia |].
  destruct (Z.ltb_spec 0 step); [| lia].
  eexists. split; [reflexivity |].
  set (cnt := (stop - start + step - 1) / step).
  assert (Hn : forall i, i < cnt <-> start + i * step < stop).
  { intros i. unfold cnt.
    pose proof (Z.div_mod (stop - start + step - 1) step ltac:(lia)) as Hd.
    pose proof (Z.mod_pos_bound (stop - start + step - 1) step Hstep) as Hm.
    split; intros Hi; nia. }
  split.
  - apply NoDup_fmap_2; [| apply NoDup_seqZ].
    intros i j Hij. nia.
  - intros p. rewrite list_elem_of_fmap. split.
    + intros (i & -> & Hi). apply elem_of_seqZ in Hi.
      assert (i < cnt) by lia.
      split; [split; [nia | now apply Hn] |].
      exists i. lia.
    + intros ([Hlo Hhi] & k & Hk).
      assert (0 <= k) by nia.
      exists k. split; [lia |]. apply elem_of_seqZ.
      assert (k < cnt) by (apply Hn; lia). lia.
Qed.

Lemma new_marks_snd (n : positive) (l : list SliderMark) :
  (new_marks n l).*2 = l.
Proof.
  revert n. induction l as [| m l IH]; intros n; [reflexivity |].
  cbn. now rewrite IH.
Qed.

Lemma new_marks_ge (n : positive) (l : list SliderMark) (id : positive) :
  id ∈ (new_marks n l).*1 -> (n <= id)%positive.
Proof.
  revert n. induction l as [| m l IH]; intros n; cbn.
  - intros H. now apply elem_of_nil in H.
  - rewrite elem_of_cons. intros [-> | H]; [lia |].
    apply IH in H. lia.
Qed.

Lemma new_marks_NoDup (n : positive) (l : list SliderMark) :
  NoDup (new_marks n l).*1.
Proof.
  revert n. induction l as [| m l IH]; intros n; cbn; constructor.
  - intros H. apply new_marks_ge in H. lia.
  - apply IH.
Qed.

Lemma val_tick_mark (l : list Z) : val <$> (tick_mark <$> l) = l.
Proof. induction l as [| p l IH]; cbn; [reflexivity | now rewrite IH]. Qed.

(** Adding a tick mark that lies within the value range. *)
Lemma addMark_tick (s : VideoSlider) (id : positive) (m : SliderMark) :
  type m = Tick -> _val_min s <= val m <= _val_max s ->
  exists s', addMark s (id, m) false = Ok s' /\
    _marks s' = <[id := m]> (_marks s) /\
    _tick_marks s' = _tick_marks s /\
    _val_min s' = _val_min s /\ _val_max s' = _val_max s.
Proof.
  intros Ht Hv. unfold addMark.
  destruct (Z.gtb_spec (val m) (_val_max s)); [lia |].
  destruct (Z.ltb_spec (val m) (_val_min s)); [lia |].
  destruct (decide (type m = Track)) as [E | _]; [congruence |].
  rewrite bind_Ok. rewrite Ht. cbn. eexists. repeat split; reflexivity.
Qed.

(** The loop [for tick_mark in self._tick_marks: self.addMark(...)]. *)
Lemma add_ticks (l : list (positive * SliderMark)) (s : VideoSlider) :
  (forall x, x ∈ l ->
     type x.2 = Tick /\ _val_min s <= val x.2 <= _val_max s) ->
  NoDup l.*1 ->
  exists s',
    foldlM_r (fun s tick_mark => addMark s tick_mark false) s l = Ok s' /\
    _tick_marks s' = _tick_marks s /\
    _val_min s' = _val_min s /\ _val_max s' = _val_max s /\
    (forall id m, (id, m) ∈ l -> _marks s' !! id = Some m) /\
    (forall id, id ∉ l.*1 -> _marks s' !! id = _marks s !! id).
Proof.
  revert s. induction l as [| [id0 m0] l IH]; intros s Hl Hnd.
  - exists s. cbn. repeat split; try reflexivity.
    intros id m H. now apply elem_of_nil in H.
  - cbn in Hnd. apply NoDup_cons in Hnd as [Hid0 Hnd].
    destruct (Hl (id0, m0)) as [Ht Hv]; [left |].
    destruct (addMark_tick s id0 m0 Ht Hv) as (s1 & H1 & Hm1 & Ht1 & Hlo & Hhi).
    destruct (IH s1) as (s' & H' & Ht' & Hlo' & Hhi' & Hin & Hout).
    { intros x Hx. rewrite Hlo, Hhi. apply Hl. now right. }
    { exact Hnd. }
    exists s'. cbn [foldlM_r]. rewrite H1, bind_Ok.
    split; [exact H' |]. split; [congruence |].
    split; [congruence |]. split; [congruence |]. split.
    + intros id m Hx. apply elem_of_cons in Hx as [Hx | Hx].
      * injection Hx as -> ->. rewrite (Hout id0 Hid0), Hm1.
        apply lookup_insert_eq.
      * now apply Hin.
    + intros id Hid. cbn in Hid. apply not_elem_of_cons in Hid as [Hne Hid].
      rewrite (Hout id Hid), Hm1. now apply lookup_insert_ne.
Qed.

End Ticks.

(** C3, as the code has it: the step of the tick marks is the smallest of
    10, 100, 1000, ... whose floor quotient into the visible value range is
    at most 24, and the ticks are the marks at the positions [p] with
    [min + step - 1 <= p < max] for which [p - min + 1] is a multiple of the
    step (the first at [min + step - 1], then every [step]); each of them is
    a ["tick"] mark of the mark set. *)
Theorem add_tick_marks_positions (s : VideoSlider) (val_range : Z) :
  slider_visible_value_range s = Ok val_range ->
  exists (k : nat) (s' : VideoSlider),
    (1 <= k)%nat /\
    Z.pos (tick_order val_range 10) = 10 ^ Z.of_nat k /\
    val_range / 10 ^ Z.of_nat k <= 24 /\
    (forall j : nat, (1 <= j < k)%nat -> val_range / 10 ^ Z.of_nat j > 24) /\
    _add_tick_marks s = Ok s' /\
    NoDup ((fun t => val t.2) <$> _tick_marks s') /\
    (forall p,
        p ∈ (fun t => val t.2) <$> _tick_marks s' <->
        _val_min s + 10 ^ Z.of_nat k - 1 <= p < _val_max s /\
        (10 ^ Z.of_nat k | p - _val_min s + 1)) /\
    (forall id m, (id, m) ∈ _tick_marks s' ->
        type m = Tick /\ _marks s' !! id = Some m).
Proof.
  intros Hvr.
  destruct (tick_order_spec val_range 10) as (j & Hj & Hle & Hsmall).
  assert (E : forall i : nat, 10 * 10 ^ Z.of_nat i = 10 ^ Z.of_nat (S i)).
  { intros i. rewrite Nat2Z.inj_succ, Z.pow_succ_r by lia. reflexivity. }
  rewrite E in Hj, Hle.
  set (step := 10 ^ Z.of_nat (S j)) in *.
  assert (Hstep : 10 <= step).
  { unfold step. rewrite <- E.
    assert (0 < 10 ^ Z.of_nat j) by (apply Z.pow_pos_nonneg; lia). lia. }
  destruct (py_range_pos (_val_min s + step - 1) (_val_max s) step)
    as (positions & Hrange & Hnd & Hpos); [lia |].
  set (ticks := new_marks (next_id s) (tick_mark <$> positions)).
  set (s2 := set_next_id (Nat.iter (length ticks) Pos.succ (next_id s))
               (set_tick_marks ticks s)).
  assert (Hvals : (fun t : positive * SliderMark => val t.2) <$> ticks
                  = positions).
  { transitivity (val <$> ticks.*2);
      [now rewrite <- list_fmap_compose |].
    unfold ticks. rewrite new_marks_snd. apply val_tick_mark. }
  assert (Hticks : forall x, x ∈ ticks ->
            type x.2 = Tick /\ _val_min s2 <= val x.2 <= _val_max s2).
  { intros x Hx.
    assert (Hx2 : x.2 ∈ tick_mark <$> positions).
    { rewrite <- (new_marks_snd (next_id s) (tick_mark <$> positions)).
      apply list_elem_of_fmap. eauto. }
    apply list_elem_of_fmap in Hx2 as (p & -> & Hp).
    apply Hpos in Hp. cbn. split; [reflexivity | lia]. }
  destruct (add_ticks ticks s2 Hticks (new_marks_NoDup _ _))
    as (s' & Hfold & Htm & _ & _ & Hin & _).
  exists (S j), s'.
  split; [lia |]. split; [exact Hj |]. split; [exact Hle |].
  split.
  { intros [| i] Hi; [lia |]. rewrite <- E. apply Hsmall. lia. }
  split.
  { unfold _add_tick_marks. rewrite Hvr, bind_Ok, Hj.
    fold step. rewrite Hrange, bind_Ok. exact Hfold. }
  rewrite Htm. cbn [s2 _tick_marks set_next_id set_tick_marks].
  rewrite Hvals. split; [exact Hnd |]. split.
  - intros p. rewrite Hpos.
    assert (Hd : (step | p - (_val_min s + step - 1)) <->
                 (step | p - _val_min s + 1)).
    { split; intros [c Hc]; [exists (c + 1) | exists (c - 1)]; lia. }
    rewrite Hd. reflexivity.
  - intros id m Hx. split; [| now apply Hin].
    apply Hticks in Hx. tauto.
Qed.

Lemma add_tick_marks_positions_witness :
  exists (k : nat) (s' : VideoSlider),
    (1 <= k)%nat /\
    Z.pos (tick_order 300 10) = 10 ^ Z.of_nat k /\
    300 / 10 ^ Z.of_nat k <= 24 /\
    (forall j : nat, (1 <= j < k)%nat -> 300 / 10 ^ Z.of_nat j > 24) /\
    _add_tick_marks (init 0 1000 0 2006 600) = Ok s' /\
    NoDup ((fun t => val t.2) <$> _tick_marks s') /\
    (forall p,
        p ∈ (fun t => val t.2) <$> _tick_marks s' <->
        0 + 10 ^ Z.of_nat k - 1 <= p < 1000 /\
        (10 ^ Z.of_nat k | p - 0 + 1)) /\
    (forall id m, (id, m) ∈ _tick_marks s' ->
        type m = Tick /\ _marks s' !! id = Some m).
Proof.
  apply (add_tick_marks_positions (init 0 1000 0 2006 600) 300).
  vm_compute. reflexivity.
Defined.

(** C3, as stated, fails for the positions: with the range 0 to 100 and the
    step 10 the ticks stand at 9, 19, ..., 99, while the multiples of the
    step from [min + step - 1] up to [max] are 10, 20, ..., 90. *)
Lemma ticks_not_at_multiples_of_step :
  let s := init 0 100 0 199 200 in
  slider_visible_value_range s = Ok 103 /\
  Z.pos (tick_order 103 10) = 10 /\
  exists s',
    _add_tick_marks s = Ok s' /\
    (fun t => val t.2) <$> _tick_marks s'
      = [9; 19; 29; 39; 49; 59; 69; 79; 89; 99] /\
    ~ (forall p,
         p ∈ (fun t => val t.2) <$> _tick_marks s' <->
         _val_min s + 10 - 1 <= p < _val_max s /\ (10 | p)).
Proof.
  cbn zeta. split; [vm_compute; reflexivity |]. split; [reflexivity |].
  eexists. split; [vm_compute; reflexivity |]. split; [reflexivity |].
  intros H. destruct (H 10) as [_ Hin].
  assert (Hten : 10 ∈ [9; 19; 29; 39; 49; 59; 69; 79; 89; 99]).
  { apply Hin. split; [cbn; lia | exists 1; lia]. }
  rewrite !elem_of_cons in Hten.
  repeat (destruct Hten as [Hten | Hten]; [discriminate Hten |]).
  now apply elem_of_nil in Hten.
Qed.

(** ** The value and its bounds *)

Section ValueBounds.

Lemma insert_by_key_elem {A K} (le : K -> K -> bool) (key : A -> K)
    (x y : A) (l : list A) :
  y ∈ insert_by_key le key x l -> y = x \/ y ∈ l.
Proof.
  induction l as [| z l IH]; cbn.
  - rewrite list_elem_of_singleton. now left.
  - destruct (le (key x) (key z)).
    + rewrite elem_of_cons. tauto.
    + rewrite !elem_of_cons. intros [-> | H]; [tauto |].
      destruct (IH H); tauto.
Qed.

(** Sorting brings in no new item. *)
Lemma sort_by_key_elem {A K} (le : K -> K -> bool) (key : A -> K)
    (y : A) (l : list A) :
  y ∈ sort_by_key le key l -> y ∈ l.
Proof.
  induction l as [| x l IH]; cbn; [trivial |].
  intros H. apply insert_by_key_elem in H as [-> | H].
  - now left.
  - right. now apply IH.
Qed.

Lemma setValue_Ok (s : VideoSlider) (v : Z) :
  exists x, setValue s v = Ok (set_handle_x x (set_val_main v s)).
Proof.
  unfold setValue.
  destruct (_toPos_Ok (set_val_main v s) (inject_Z v) false)
    as [_ (p & -> & _)].
  rewrite bind_Ok. eauto.
Qed.

(** A pixel position on the slider maps to a value within the bounds. *)
Lemma _toVal_within (s : VideoSlider) (x : Q) (center : bool) :
  (0 < _sliderWidth s)%Q -> _val_min s < _val_max s ->
  (0 <= x)%Q -> (x <= _sliderWidth s)%Q ->
  exists v, _toVal s x center = Ok v /\ _val_min s <= v <= _val_max s.
Proof.
  intros HW Hmm Hx0 HxW.
  rewrite _toVal_Ok by (intros E; rewrite E in HW; now apply Qlt_irrefl in HW).
  eexists. split; [reflexivity |].
  replace (Z.max 1 (_val_max s - _val_min s)) with (_val_max s - _val_min s)
    by lia.
  assert (Ht0 : (0 <= x / _sliderWidth s)%Q).
  { apply Qle_shift_div_l; [exact HW | now rewrite Qmult_0_l]. }
  assert (Ht1 : (x / _sliderWidth s <= 1)%Q).
  { apply Qle_shift_div_r; [exact HW | now rewrite Qmult_1_l]. }
  assert (HR : (0 <= inject_Z (_val_max s - _val_min s))%Q).
  { change 0%Q with (inject_Z 0). rewrite <- Zle_Qle. lia. }
  assert (Emax : (inject_Z (_val_max s)
                  == inject_Z (_val_max s - _val_min s)
                     + inject_Z (_val_min s))%Q).
  { rewrite <- inject_Z_plus. now replace (_val_max s - _val_min s + _val_min s)
      with (_val_max s) by lia. }
  set (t := (x / _sliderWidth s)%Q) in *.
  set (r := inject_Z (_val_max s - _val_min s)) in *.
  apply py_round_between.
  - assert (0 <= t * r)%Q by (now apply Qmult_le_0_compat). lra.
  - rewrite Emax. fold r.
    assert (t * r <= 1 * r)%Q by (now apply Qmult_le_compat_r). lra.
Qed.

End ValueBounds.

(** C9, as the code has it: [setValue], [setMinimum] and [setMaximum] store
    their argument as it is given, without comparing it with the value or
    the bounds; [moveHandle] leaves the bounds as they are and, when the
    minimum is below the maximum, the visible width of the slider is
    positive and every mark lies within the bounds, sets a value that lies
    within the bounds. *)
Theorem value_within_bounds (s : VideoSlider) (x y : Q) :
  (0 < _sliderWidth s)%Q ->
  _val_min s < _val_max s ->
  (forall id m, _marks s !! id = Some m ->
     _val_min s <= val m <= _val_max s) ->
  (exists s', moveHandle s x y = Ok s' /\
     _val_min s' = _val_min s /\ _val_max s' = _val_max s /\
     _val_min s' <= value s' <= _val_max s') /\
  (forall v, exists s', setValue s v = Ok s' /\
     _val_min s' = _val_min s /\ _val_max s' = _val_max s /\
     value s' = v) /\
  (forall min, _val_min (setMinimum s min) = min /\
     _val_max (setMinimum s min) = _val_max s /\
     value (setMinimum s min) = value s) /\
  (forall max, _val_max (setMaximum s max) = max /\
     _val_min (setMaximum s max) = _val_min s /\
     value (setMaximum s max) = value s).
Proof.
  intros HW Hmm Hmarks.
  assert (Hset : forall v, exists s', setValue s v = Ok s' /\
            _val_min s' = _val_min s /\ _val_max s' = _val_max s /\
            value s' = v).
  { intros v. destruct (setValue_Ok s v) as [hx ->].
    eexists. repeat split; reflexivity. }
  split; [| split; [exact Hset | split; intros b; repeat split; reflexivity]].
  unfold moveHandle. fold (_sliderWidth s).
  set (x0 := Qmin (Qmax (x - handle_width s / 2) 0) (_sliderWidth s)).
  assert (Hx0 : (0 <= x0)%Q).
  { apply Q.min_glb; [apply Q.le_max_r | now apply Qlt_le_weak]. }
  assert (HxW : (x0 <= _sliderWidth s)%Q) by apply Q.le_min_r.
  destruct (_toVal_within s x0 false HW Hmm Hx0 HxW) as (v0 & -> & Hv0).
  rewrite bind_Ok.
  assert (HW0 : ~ (_sliderWidth s == 0)%Q)
    by (intros E; rewrite E in HW; now apply Qlt_irrefl in HW).
  rewrite !_toVal_Ok by exact HW0. rewrite !bind_Ok.
  match goal with
  | |- context [sort_by_key ?le ?key ?l] =>
      set (sorted := sort_by_key le key l);
      assert (Hsorted : forall m, m ∈ sorted -> m ∈ val <$> marks_of s)
  end.
  { intros m Hm. apply sort_by_key_elem in Hm.
    now apply list_elem_of_filter in Hm as [_ Hm]. }
  set (v := match sorted with m :: _ => m | [] => v0 end).
  assert (Hv : _val_min s <= v <= _val_max s).
  { unfold v. destruct sorted as [| m sorted']; [exact Hv0 |].
    specialize (Hsorted m ltac:(left)).
    apply list_elem_of_fmap in Hsorted as (mark & -> & Hmark).
    unfold marks_of in Hmark.
    apply list_elem_of_fmap in Hmark as ([id mark'] & -> & Hmark).
    apply elem_of_map_to_list in Hmark. now apply (Hmarks id). }
  destruct (Hset v) as (s' & -> & Hlo & Hhi & Hval).
  rewrite bind_Ok.
  destruct (negb (value s =? v)).
  - eexists. split; [reflexivity |]. cbn. rewrite Hlo, Hhi.
    change (_val_main s') with (value s'). rewrite Hval. tauto.
  - exists s'. split; [reflexivity |]. rewrite Hlo, Hhi, Hval. tauto.
Qed.

Lemma value_within_bounds_witness :
  exists s',
    moveHandle (set_marks {[ 3%positive := simple_mark 40 ]}
                          (init 0 100 15 199 200)) 80 5 = Ok s' /\
    _val_min s' <= value s' <= _val_max s'.
Proof.
  destruct (value_within_bounds
              (set_marks {[ 3%positive := simple_mark 40 ]}
                         (init 0 100 15 199 200)) 80 5)
    as [(s' & H & _ & _ & Hv) _].
  - reflexivity.
  - reflexivity.
  - intros id m Hm. cbn [_marks set_marks] in Hm.
    apply lookup_singleton_Some in Hm as [_ <-]. cbn. lia.
  - exists s'. split; [exact H | exact Hv].
Defined.

(** C9, as stated, fails: [setValue] does not clamp. From a state whose
    value 0 lies within the bounds 0 and 100, [setValue(101)] leaves the
    value 101 above the maximum. *)
Lemma setValue_leaves_bounds :
  let s := init 0 100 0 199 200 in
  _val_min s <= value s <= _val_max s /\
  exists s', setValue s 101 = Ok s' /\
             _val_max s' = 100 /\ value s' = 101 /\
             ~ (_val_min s' <= value s' <= _val_max s').
Proof.
  cbn zeta. split; [cbn; lia |].
  eexists. split; [vm_compute; reflexivity |].
  split; [reflexivity |]. split; [reflexivity |]. cbn. lia.
Qed.

(** * Further properties of the slider and of the padding *)

(** ** Rounding and the two conversions *)

Section Conversions.


Lemma py_round_floor (q : Q) : Qfloor q <= py_round q <= Qfloor q + 1.
Proof.
  unfold py_round.
  destruct (Qcompare (q - inject_Z (Qfloor q)) (1 # 2));
    [destruct (Z.even (Qfloor q)) | |]; lia.
Qed.

(** [round] keeps the order. *)
Lemma py_round_mono (q q' : Q) : (q <= q')%Q -> py_round q <= py_round q'.
Proof.
  intros Hq.
  pose proof (Qfloor_resp_le _ _ Hq) as Hf.
  destruct (Z.eq_dec (Qfloor q) (Qfloor q')) as [E | NE].
  - unfold py_round. rewrite E.
    destruct (Qcompare_spec (q - inject_Z (Qfloor q')) (1 # 2)) as [C | C | C];
    destruct (Qcompare_spec (q' - inject_Z (Qfloor q')) (1 # 2))
      as [C' | C' | C'];
    try destruct (Z.even (Qfloor q')); try lia; exfalso; lra.
  - pose proof (py_round_floor q). pose proof (py_round_floor q'). lia.
Qed.

Variable s : VideoSlider.

Let R : Q := inject_Z (Z.max 1 (_val_max s - _val_min s)).

Lemma value_range_divisor_pos : (1 <= R)%Q.
Proof.
  unfold R. change 1%Q with (inject_Z 1). rewrite <- Zle_Qle. lia.
Qed.


End Conversions.

Lemma inject_Z_sub (a b : Z) :
  (inject_Z (a - b) == inject_Z a - inject_Z b)%Q.
Proof.
  unfold Z.sub. rewrite inject_Z_plus, inject_Z_opp. reflexivity.
Qed.


(** X2: [setValue(v)] with [min <= v <= max], on a slider whose visible
    width is not negative, stores [v] and puts the left edge of the handle
    between 0 and the visible width, so that the handle stays inside the
    outline box; the minimum is drawn at 0 and, when the minimum is below the
    maximum, the maximum at the visible width. *)
Theorem setValue_handle_on_slider (s : VideoSlider) (v : Z) :
  (0 <= _sliderWidth s)%Q -> _val_min s <= v <= _val_max s ->
  exists s',
    setValue s v = Ok s' /\ value s' = v /\
    (0 <= handle_x s')%Q /\
    (handle_x s' + handle_width s' <= rect_width (_box_rect s'))%Q /\
    (v = _val_min s -> (handle_x s' == 0)%Q) /\
    (v = _val_max s -> _val_min s < _val_max s ->
     (handle_x s' == _sliderWidth s)%Q).
Proof.
  intros HW Hv. unfold setValue.
  destruct (_toPos_Ok (set_val_main v s) (inject_Z v) false)
    as [_ (p & -> & Ep)].
  rewrite bind_Ok. eexists. split; [reflexivity |]. split; [reflexivity |].
  cbn [handle_x set_handle_x handle_width _box_rect set_val_main].
  change (_sliderWidth (set_val_main v s)) with (_sliderWidth s) in Ep.
  cbn [_val_min _val_max set_val_main] in Ep.
  pose proof (value_range_divisor_pos s) as HR.
  set (R := inject_Z (Z.max 1 (_val_max s - _val_min s))) in *.
  set (t := ((inject_Z v - inject_Z (_val_min s)) / R)%Q) in *.
  assert (Ht0 : (0 <= t)%Q).
  { unfold t. apply Qle_shift_div_l; [lra |]. rewrite Qmult_0_l.
    assert (inject_Z (_val_min s) <= inject_Z v)%Q
      by (rewrite <- Zle_Qle; lia). lra. }
  assert (Ht1 : (t <= 1)%Q).
  { unfold t. apply Qle_shift_div_r; [lra |]. rewrite Qmult_1_l.
    unfold R. rewrite <- inject_Z_sub, <- Zle_Qle. lia. }
  assert (H0 : (0 <= t * _sliderWidth s)%Q)
    by (now apply Qmult_le_0_compat).
  assert (H1 : (t * _sliderWidth s <= 1 * _sliderWidth s)%Q)
    by (now apply Qmult_le_compat_r).
  unfold _sliderWidth in *.
  split; [lra |]. split; [lra |]. split.
  - intros ->. rewrite Ep. unfold t.
    unfold Qdiv. ring.
  - intros -> Hlt. rewrite Ep. unfold t, R.
    replace (Z.max 1 (_val_max s - _val_min s)) with (_val_max s - _val_min s)
      by lia.
    rewrite inject_Z_sub. field.
    intros E. assert (inject_Z (_val_min s) < inject_Z (_val_max s))%Q
      by (rewrite <- Zlt_Qlt; lia). lra.
Qed.

Lemma setValue_handle_on_slider_witness :
  exists s',
    setValue (init 0 100 0 199 200) 100 = Ok s' /\ value s' = 100 /\
    (0 <= handle_x s')%Q /\
    (handle_x s' + handle_width s' <= rect_width (_box_rect s'))%Q /\
    (100 = 0 -> (handle_x s' == 0)%Q) /\
    (100 = 100 -> 0 < 100 -> (handle_x s' == 193)%Q).
Proof.
  apply (setValue_handle_on_slider (init 0 100 0 199 200) 100).
  - discriminate.
  - cbn. lia.
Defined.

(** X3: on a slider of positive visible width [_toVal] keeps the order of
    the positions: a position further right gives the same or a larger
    value. *)
Theorem _toVal_mono (s : VideoSlider) (x1 x2 : Q) (center : bool) :
  (0 < _sliderWidth s)%Q -> (x1 <= x2)%Q ->
  exists v1 v2,
    _toVal s x1 center = Ok v1 /\ _toVal s x2 center = Ok v2 /\ v1 <= v2.
Proof.
  intros HW Hx.
  assert (HW0 : ~ (_sliderWidth s == 0)%Q)
    by (intros E; rewrite E in HW; now apply Qlt_irrefl in HW).
  rewrite !_toVal_Ok by exact HW0.
  eexists _, _. split; [reflexivity |]. split; [reflexivity |].
  apply py_round_mono.
  pose proof (value_range_divisor_pos s) as HR.
  apply Qplus_le_l. apply Qmult_le_compat_r; [| lra].
  apply Qmult_le_compat_r; [exact Hx |].
  now apply Qlt_le_weak, Qinv_lt_0_compat.
Qed.

Lemma _toVal_mono_witness :
  exists v1 v2,
    _toVal (init 0 100 0 199 200) 30 false = Ok v1 /\
    _toVal (init 0 100 0 199 200) (61 # 2) false = Ok v2 /\ v1 <= v2.
Proof.
  apply (_toVal_mono (init 0 100 0 199 200) 30 (61 # 2) false).
  - reflexivity.
  - discriminate.
Defined.



(** ** The selection as a state machine *)

Lemma last_two_even {A} (l : list A) :
  Nat.even (length l) && (0 <? length l)%nat = true ->
  exists sel a b, l = sel ++ [a; b] /\ Nat.even (length sel) = true.
Proof.
  intros H. apply andb_true_iff in H as [He Hp].
  apply Nat.ltb_lt in Hp. now apply even_pos_ends_with_pair.
Qed.

(** X5: [getSelection] and [hasSelection] never raise; the pair returned is
    ordered, it is the last recorded pair when the number of endpoints is
    even and positive and (0, 0) otherwise, and [hasSelection] tells whether
    its two values differ. *)
Theorem getSelection_ordered (s : VideoSlider) :
  exists a b,
    getSelection s = Ok (a, b) /\ a <= b /\
    hasSelection s = Ok (negb (a =? b)) /\
    (Nat.even (length (_selection s)) = false \/ _selection s = [] ->
     (a, b) = (0, 0)) /\
    (forall sel x y, _selection s = sel ++ [x; y] ->
       Nat.even (length sel) = true -> (a, b) = (Z.min x y, Z.max x y)).
Proof.
  assert (H : exists x y,
             getSelection s = Ok (Z.min x y, Z.max x y) /\
             (Nat.even (length (_selection s)) = false \/ _selection s = [] ->
              (x, y) = (0, 0)) /\
             (forall sel x' y', _selection s = sel ++ [x'; y'] ->
                Nat.even (length sel) = true -> (x, y) = (x', y'))).
  { unfold getSelection.
    destruct (Nat.even (length (_selection s))
              && (0 <? length (_selection s))%nat) eqn:E.
    - destruct (last_two_even _ E) as (sel & x & y & Hs & He).
      exists x, y. rewrite Hs, last_two_app. split; [reflexivity |]. split.
      + apply andb_true_iff in E as [E _]. rewrite Hs in *.
        intros [H | H]; [congruence | now destruct sel].
      + intros sel' x' y' Hs' _.
        replace (sel ++ [x; y]) with ((sel ++ [x]) ++ [y]) in Hs'
          by now rewrite <- app_assoc.
        replace (sel' ++ [x'; y']) with ((sel' ++ [x']) ++ [y']) in Hs'
          by now rewrite <- app_assoc.
        apply app_inj_tail in Hs' as [Hs' ->].
        apply app_inj_tail in Hs' as [_ ->]. reflexivity.
    - exists 0, 0. split; [reflexivity |]. split; [reflexivity |].
      intros sel x' y' Hs He. exfalso. rewrite Hs in E.
      replace (sel ++ [x'; y']) with ((sel ++ [x']) ++ [y']) in E
        by now rewrite <- app_assoc.
      rewrite !even_length_snoc, He, length_app in E.
      cbn [negb andb length] in E. apply Nat.ltb_ge in E. lia. }
  destruct H as (x & y & Hg & Hodd & Hpair).
  exists (Z.min x y), (Z.max x y). split; [exact Hg |].
  split; [lia |]. split; [| split].
  - unfold hasSelection. rewrite Hg, bind_Ok. cbn. f_equal.
    destruct (Z.ltb_spec (Z.min x y) (Z.max x y));
      destruct (Z.eqb_spec (Z.min x y) (Z.max x y)); cbn; try reflexivity; lia.
  - intros H. apply Hodd in H. injection H as -> ->. reflexivity.
  - intros sel x' y' Hs He. specialize (Hpair sel x' y' Hs He).
    injection Hpair as -> ->. reflexivity.
Qed.

(** X6: on a widget without recorded endpoints, [endSelection] with
    [update=True] raises [IndexError] (it pops from the empty list) and with
    [update=False] raises [ValueError] (one endpoint cannot be unpacked into
    a pair). *)
Theorem endSelection_without_start (s : VideoSlider) (v : Z) :
  _selection s = [] ->
  endSelection s v true = Raise IndexError /\
  endSelection s v false = Raise ValueError.
Proof.
  intros H. unfold endSelection. rewrite H. split; reflexivity.
Qed.

Lemma endSelection_without_start_witness :
  endSelection (init 0 100 0 199 200) 4 true = Raise IndexError /\
  endSelection (init 0 100 0 199 200) 4 false = Raise ValueError.
Proof.
  apply (endSelection_without_start (init 0 100 0 199 200) 4). reflexivity.
Defined.

(** X7: from an even number of recorded endpoints, [setSelection(a, a)]
    selects nothing: every recorded endpoint is dropped, the selection box
    is hidden, [getSelection()] is (0, 0), [hasSelection()] is false and
    [selectionChanged(0, 0)] is emitted. *)
Theorem setSelection_equal_clears (s : VideoSlider) (a : Z) :
  Nat.even (length (_selection s)) = true ->
  exists s',
    setSelection s a a = Ok s' /\
    _selection s' = [] /\
    box_visible (select_box s') = false /\
    getSelection s' = Ok (0, 0) /\
    hasSelection s' = Ok false /\
    emitted s' = emitted s ++ [selectionChanged 0 0].
Proof.
  intros He. unfold setSelection, endSelection.
  cbn [startSelection _selection set_selection].
  rewrite even_length_snoc, He. cbn [negb andb].
  change (@mret result _ _ (_selection s ++ [a])) with (Ok (_selection s ++ [a])).
  rewrite bind_Ok. cbn [_selection set_selection].
  rewrite <- app_assoc. cbn [app]. rewrite last_two_app, bind_Ok.
  cbn [fst snd]. rewrite Z.eqb_refl. cbn.
  eexists. repeat split; reflexivity.
Qed.

Lemma setSelection_equal_clears_witness :
  exists s',
    setSelection (set_selection [3; 8] (init 0 100 0 199 200)) 5 5 = Ok s' /\
    _selection s' = [] /\
    box_visible (select_box s') = false /\
    getSelection s' = Ok (0, 0) /\
    hasSelection s' = Ok false /\
    emitted s' = [] ++ [selectionChanged 0 0].
Proof.
  apply (setSelection_equal_clears
           (set_selection [3; 8] (init 0 100 0 199 200)) 5).
  reflexivity.
Defined.

(** X8: whenever [endSelection] returns, it has emitted one signal,
    [selectionChanged], and the signal carries what [getSelection()] returns
    afterwards. *)
Theorem endSelection_emits_selection
    (s s' : VideoSlider) (v : Z) (update : bool) :
  endSelection s v update = Ok s' ->
  exists a b,
    getSelection s' = Ok (a, b) /\
    emitted s' = emitted s ++ [selectionChanged a b].
Proof.
  unfold endSelection. intros H.
  destruct (if update && Nat.even (length (_selection s))
            then pop (_selection s) else mret (_selection s)) as [sel | e];
    [rewrite bind_Ok in H | discriminate H].
  destruct (last_two (_selection (set_selection (sel ++ [v]) s)))
    as [[a b] | e]; [rewrite bind_Ok in H | discriminate H].
  cbn [fst snd] in H.
  assert (Hs2 : exists s2,
             (if a =? b then mret (clearSelection (set_selection (sel ++ [v]) s))
              else drawSelection (set_selection (sel ++ [v]) s) a b) = Ok s2 /\
             emitted s2 = emitted s).
  { destruct (a =? b); [eexists; split; reflexivity |].
    destruct (drawSelection_Ok (set_selection (sel ++ [v]) s) a b)
      as [box ->]. eexists; split; reflexivity. }
  destruct Hs2 as (s2 & Hs2 & Hem). rewrite Hs2, bind_Ok in H.
  destruct (getSelection s2) as [[c d] | e] eqn:Hg;
    [rewrite bind_Ok in H | discriminate H].
  injection H as <-. exists c, d. split.
  - exact Hg.
  - cbn [emitted set_emitted fst snd]. now rewrite Hem.
Qed.

Lemma endSelection_emits_selection_witness :
  exists a b,
    getSelection
      (set_emitted [selectionChanged 0 0]
         (set_selection [] (set_selection [2; 2] (init 0 100 0 199 200))))
      = Ok (a, b) /\
    emitted
      (set_emitted [selectionChanged 0 0]
         (set_selection [] (set_selection [2; 2] (init 0 100 0 199 200))))
      = [] ++ [selectionChanged a b].
Proof.
  apply (endSelection_emits_selection
           (set_selection [2] (init 0 100 0 199 200)) _ 2 false).
  reflexivity.
Defined.

(** ** Selecting by dragging *)

Lemma _toVal_same_geometry (s s' : VideoSlider) (x : Q) (center : bool) :
  _box_rect s' = _box_rect s -> handle_width s' = handle_width s ->
  _val_min s' = _val_min s -> _val_max s' = _val_max s ->
  _toVal s' x center = _toVal s x center.
Proof.
  intros H1 H2 H3 H4. unfold _toVal, _sliderWidth.
  now rewrite H1, H2, H3, H4.
Qed.

(** X9: a drag with the selection modifier, on a slider whose visible width
    is not zero: after the selection is cleared, the first move of the
    pointer records the value under it as the one endpoint, further moves
    record nothing, and the release records the value under the pointer as
    the second endpoint; the selection is then the ordered pair of the two
    values, or empty when they are equal. The pointer position is clamped
    to the outline box before it is converted. *)
Theorem drag_selection (s : VideoSlider) (x1 y1 x y x2 y2 : Q) :
  ~ (_sliderWidth s == 0)%Q ->
  let clamp := fun x : Q => Qmin (Qmax x 0) (rect_width (_box_rect s)) in
  exists v1 v2 s1 s1' s2,
    _toVal s (clamp x1) false = Ok v1 /\
    _toVal s (clamp x2) false = Ok v2 /\
    moveSelectionAnchor (clearSelection s) x1 y1 = Ok s1 /\
    _selection s1 = [v1] /\
    moveSelectionAnchor s1 x y = Ok s1' /\
    _selection s1' = [v1] /\
    releaseSelectionAnchor s1' x2 y2 = Ok s2 /\
    _selection s2 = (if v1 =? v2 then [] else [v1; v2]) /\
    getSelection s2
      = Ok (if v1 =? v2 then (0, 0) else (Z.min v1 v2, Z.max v1 v2)).
Proof.
  intros HW clamp.
  destruct (_toVal s (clamp x1) false) as [v1 | e] eqn:Hv1;
    [| rewrite _toVal_Ok in Hv1 by exact HW; discriminate Hv1].
  destruct (_toVal s (clamp x2) false) as [v2 | e] eqn:Hv2;
    [| rewrite _toVal_Ok in Hv2 by exact HW; discriminate Hv2].
  destruct (_toVal s (clamp x) false) as [v | e] eqn:Hv;
    [| rewrite _toVal_Ok in Hv by exact HW; discriminate Hv].
  (* the first move *)
  destruct (drawSelection_Ok (startSelection (clearSelection s) v1) v1 v1)
    as [box1 Hd1].
  set (s1 := set_select_box box1 (startSelection (clearSelection s) v1)).
  assert (Hm1 : moveSelectionAnchor (clearSelection s) x1 y1 = Ok s1).
  { unfold moveSelectionAnchor.
    change (rect_width (_box_rect (clearSelection s)))
      with (rect_width (_box_rect s)).
    fold (clamp x1).
    rewrite (_toVal_same_geometry s (clearSelection s)) by reflexivity.
    change (_toVal s (clamp x1) true) with (_toVal s (clamp x1) false).
    rewrite Hv1, bind_Ok.
    change (_selection (clearSelection s)) with (@nil Z).
    cbn [length Nat.even].
    change (_selection (startSelection (clearSelection s) v1)) with [v1].
    cbn [last last_item]. rewrite bind_Ok. exact Hd1. }
  (* a further move *)
  destruct (drawSelection_Ok s1 v v1) as [box2 Hd2].
  set (s1' := set_select_box box2 s1).
  assert (Hm2 : moveSelectionAnchor s1 x y = Ok s1').
  { unfold moveSelectionAnchor.
    change (rect_width (_box_rect s1)) with (rect_width (_box_rect s)).
    fold (clamp x).
    rewrite (_toVal_same_geometry s s1) by reflexivity.
    change (_toVal s (clamp x) true) with (_toVal s (clamp x) false).
    rewrite Hv, bind_Ok.
    change (_selection s1) with [v1]. cbn [length Nat.even].
    change (_selection s1) with [v1]. cbn [last last_item].
    rewrite bind_Ok. exact Hd2. }
  (* the release *)
  destruct (endSelection_pair s1' [] v1 v2 false)
    as (s2 & Hend & Hsel & _); [reflexivity | reflexivity |].
  assert (Hrel : releaseSelectionAnchor s1' x2 y2 = Ok s2).
  { unfold releaseSelectionAnchor.
    change (rect_width (_box_rect s1')) with (rect_width (_box_rect s)).
    fold (clamp x2).
    rewrite (_toVal_same_geometry s s1') by reflexivity.
    rewrite Hv2, bind_Ok. exact Hend. }
  exists v1, v2, s1, s1', s2.
  repeat (split; [first [reflexivity | assumption] |]).
  destruct (v1 =? v2).
  - unfold getSelection. now rewrite Hsel.
  - now apply (getSelection_pair s2 []).
Qed.

Lemma drag_selection_witness :
  let clamp := fun x : Q => Qmin (Qmax x 0) 199 in
  exists v1 v2 s1 s1' s2,
    _toVal (init 0 100 0 199 200) (clamp 150%Q) false = Ok v1 /\
    _toVal (init 0 100 0 199 200) (clamp 40%Q) false = Ok v2 /\
    moveSelectionAnchor (clearSelection (init 0 100 0 199 200)) 150 3
      = Ok s1 /\
    _selection s1 = [v1] /\
    moveSelectionAnchor s1 90 3 = Ok s1' /\
    _selection s1' = [v1] /\
    releaseSelectionAnchor s1' 40 3 = Ok s2 /\
    _selection s2 = (if v1 =? v2 then [] else [v1; v2]) /\
    getSelection s2
      = Ok (if v1 =? v2 then (0, 0) else (Z.min v1 v2, Z.max v1 v2)).
Proof.
  apply (drag_selection (init 0 100 0 199 200) 150 3 90 3 40 3).
  discriminate.
Defined.

(** ** Track rows, columns and heights *)

(** Where a row goes, the number of skipped rows being below the number of
    stacked rows. *)
Lemma getTrackColRow_slot (s : VideoSlider) (r : Z) :
  _track_stack_skip_count s < _max_tracks_stacked s ->
  exists c d,
    getTrackColRow s r = Ok (c, d) /\
    ((r < _max_tracks_stacked s /\ c = 0 /\ d = r) \/
     (_max_tracks_stacked s <= r /\ 1 <= c /\
      0 <= d < _max_tracks_stacked s - _track_stack_skip_count s /\
      r = _max_tracks_stacked s
          + (c - 1) * (_max_tracks_stacked s - _track_stack_skip_count s)
          + d)).
Proof.
  intros HK. unfold getTrackColRow.
  destruct (Z.ltb_spec r (_max_tracks_stacked s)) as [Hr | Hr].
  - exists 0, r. split; [reflexivity |]. left. lia.
  - set (n := _max_tracks_stacked s - _track_stack_skip_count s) in *.
    rewrite py_mod_pos, bind_Ok, py_floordiv_pos, bind_Ok by lia.
    eexists _, _. split; [reflexivity |]. right.
    pose proof (Z.div_mod (r - _max_tracks_stacked s) n ltac:(lia)) as Hd.
    pose proof (Z.mod_pos_bound (r - _max_tracks_stacked s) n ltac:(lia)).
    assert (0 <= (r - _max_tracks_stacked s) / n)
      by (apply Z.div_pos; lia).
    split; [exact Hr |]. split; [lia |]. split; [lia |]. lia.
Qed.

(** X10: when fewer rows are skipped than are stacked, [getTrackColRow]
    never raises and no two track rows share a column and a row within it:
    the raw row is [row] in column 0 and
    [stacked + (col - 1) * (stacked - skipped) + row] in a later column. *)
Theorem getTrackColRow_injective (s : VideoSlider) (r1 r2 : Z) :
  _track_stack_skip_count s < _max_tracks_stacked s ->
  exists c d,
    getTrackColRow s r1 = Ok (c, d) /\
    r1 = (if c =? 0 then d
          else _max_tracks_stacked s
               + (c - 1) * (_max_tracks_stacked s - _track_stack_skip_count s)
               + d) /\
    (getTrackColRow s r2 = Ok (c, d) -> r1 = r2).
Proof.
  intros HK.
  destruct (getTrackColRow_slot s r1 HK) as (c & d & H1 & Hc).
  exists c, d. split; [exact H1 |].
  assert (E : forall r, getTrackColRow s r = Ok (c, d) ->
            r = (if c =? 0 then d
                 else _max_tracks_stacked s
                      + (c - 1)
                        * (_max_tracks_stacked s - _track_stack_skip_count s)
                      + d)).
  { intros r Hr.
    destruct (getTrackColRow_slot s r HK) as (c' & d' & Hr' & Hc').
    rewrite Hr in Hr'. injection Hr' as <- <-.
    destruct (Z.eqb_spec c 0); lia. }
  split; [now apply E |].
  intros H2. rewrite (E r1 H1), (E r2 H2). reflexivity.
Qed.

Lemma getTrackColRow_injective_witness :
  exists c d,
    getTrackColRow (init 0 100 0 199 200) 345 = Ok (c, d) /\
    345 = (if c =? 0 then d else 120 + (c - 1) * (120 - 10) + d) /\
    (getTrackColRow (init 0 100 0 199 200) 15 = Ok (c, d) -> 345 = 15).
Proof.
  apply (getTrackColRow_injective (init 0 100 0 199 200) 345 15).
  reflexivity.
Defined.

(** X11: when fewer rows are skipped than are stacked, [isNewColTrack(row)]
    for a row of at least 1 is true exactly when the row lies one column
    after the row before it; otherwise the row lies in the same column, one
    row further down. *)
Theorem isNewColTrack_column_change (s : VideoSlider) (r : Z) :
  _track_stack_skip_count s < _max_tracks_stacked s -> 1 <= r ->
  exists c d c' d',
    getTrackColRow s r = Ok (c, d) /\
    getTrackColRow s (r - 1) = Ok (c', d') /\
    isNewColTrack s r = Ok (d =? 0) /\
    (d = 0 -> c = c' + 1) /\
    (d <> 0 -> c = c' /\ d = d' + 1).
Proof.
  intros HK Hr.
  destruct (getTrackColRow_slot s r HK) as (c & d & H1 & Hc).
  destruct (getTrackColRow_slot s (r - 1) HK) as (c' & d' & H2 & Hc').
  exists c, d, c', d'. split; [exact H1 |]. split; [exact H2 |].
  split; [unfold isNewColTrack; now rewrite H1 |].
  set (M := _max_tracks_stacked s) in *.
  set (n := M - _track_stack_skip_count s) in *.
  destruct Hc as [(Hlt & -> & ->) | (Hge & Hc1 & Hd & Er)];
    destruct Hc' as [(Hlt' & -> & ->) | (Hge' & Hc1' & Hd' & Er')];
    try lia.
  - (* first row of column 1 *)
    assert (c = 1) by nia. subst c. lia.
  - assert (Hn : (c - c') * n = d' - d + 1) by lia.
    assert (c - c' = 0 \/ c - c' = 1) as [E | E] by nia.
    + rewrite E in Hn. lia.
    + rewrite E in Hn. lia.
Qed.

Lemma isNewColTrack_column_change_witness :
  exists c d c' d',
    getTrackColRow (init 0 100 0 199 200) 230 = Ok (c, d) /\
    getTrackColRow (init 0 100 0 199 200) (230 - 1) = Ok (c', d') /\
    isNewColTrack (init 0 100 0 199 200) 230 = Ok (d =? 0) /\
    (d = 0 -> c = c' + 1) /\
    (d <> 0 -> c = c' /\ d = d' + 1).
Proof.
  apply (isNewColTrack_column_change (init 0 100 0 199 200) 230);
    [reflexivity | lia].
Defined.

(** X12: the minimal height computed by [getMinMaxHeights] is at most the
    maximal height and both are at least [_min_height], given a track height
    that is not negative and at least 20 rows stacked in a column; without
    tracks both are [_min_height]. *)
Theorem getMinMaxHeights_ordered (l : SliderLayout) :
  0 <= _track_height (widget l) -> 20 <= _max_tracks_stacked (widget l) ->
  _min_height l <= (getMinMaxHeights l).1 <= (getMinMaxHeights l).2 /\
  (_track_rows l = 0 ->
   getMinMaxHeights l = (_min_height l, _min_height l)).
Proof.
  intros Hth HM. unfold getMinMaxHeights.
  destruct (Z.eqb_spec (_track_rows l) 0) as [E | NE]; cbn [fst snd].
  - split; [lia | reflexivity].
  - split; [| contradiction]. nia.
Qed.

Lemma getMinMaxHeights_ordered_witness :
  39 <= (getMinMaxHeights
           {| widget := init 0 100 0 199 200;
              _track_rows := 300; _min_height := 39 |}).1
     <= (getMinMaxHeights
           {| widget := init 0 100 0 199 200;
              _track_rows := 300; _min_height := 39 |}).2 /\
  (300 = 0 ->
   getMinMaxHeights
     {| widget := init 0 100 0 199 200;
        _track_rows := 300; _min_height := 39 |} = (39, 39)).
Proof.
  apply (getMinMaxHeights_ordered
           {| widget := init 0 100 0 199 200;
              _track_rows := 300; _min_height := 39 |}); cbn; lia.
Defined.

(** ** Adding and removing marks *)

Section Marks.

(** The vertical offset that [addMark] computes for a mark. *)
Let v_offset (s : VideoSlider) (m : SliderMark) : result Z :=
  if decide (type m = Track) then
    match row m with
    | Some r =>
        cr ← getTrackColRow s r;
        mret (_header_height s + 1 + top_pad m
              + getTrackVerticalPos s cr.1 cr.2)
    | None => Raise TypeError
    end
  else mret (_header_height s + 1 + top_pad m).

(** [addMark] without redrawing, for a mark within the value range. *)
Lemma addMark_false_spec (s : VideoSlider) (id : positive) (m : SliderMark) :
  _val_min s <= val m <= _val_max s ->
  match v_offset s m with
  | Raise e => addMark s (id, m) false = Raise e
  | Ok y =>
      exists s' it,
        addMark s (id, m) false = Ok s' /\
        _marks s' = <[id := m]> (_marks s) /\
        _mark_items s' = <[id := (m, it)]> (_mark_items s) /\
        _mark_labels s' =
          (if bool_decide (type m = Tick)
           then <[id := (m, val m + 1)]> (_mark_labels s)
           else _mark_labels s) /\
        item_y it = y /\ (item_h it ==
          get_height m (rect_height (_box_rect s)
                        - inject_Z (_header_height s)))%Q /\
        _val_min s' = _val_min s /\ _val_max s' = _val_max s /\
        _val_main s' = _val_main s /\ _selection s' = _selection s /\
        _tick_marks s' = _tick_marks s /\ next_id s' = next_id s /\
        emitted s' = emitted s /\ _box_rect s' = _box_rect s /\
        handle_width s' = handle_width s /\ handle_x s' = handle_x s /\
        select_box s' = select_box s /\
        _header_height s' = _header_height s /\
        _track_height s' = _track_height s /\
        _max_tracks_stacked s' = _max_tracks_stacked s /\
        _track_stack_skip_count s' = _track_stack_skip_count s /\
        widget_width s' = widget_width s
  end.
Proof.
  intros Hv. unfold addMark.
  destruct (Z.gtb_spec (val m) (_val_max s)); [lia |].
  destruct (Z.ltb_spec (val m) (_val_min s)); [lia |].
  cbn zeta.
  change (_header_height (set_marks (<[id:=m]> (_marks s)) s))
    with (_header_height s).
  match goal with
  | |- context [mbind _ ?e] =>
      change e with (v_offset s m)
  end.
  destruct (v_offset s m) as [y | e]; [| reflexivity].
  rewrite bind_Ok.
  destruct (bool_decide (type m = Tick));
    eexists _, _; (split; [reflexivity |]); cbn;
    repeat split; reflexivity.
Qed.

Lemma mapM_r_Forall2 {A B} (f : A -> result B) (l : list A) (l' : list B) :
  mapM_r f l = Ok l' -> Forall2 (fun x y => f x = Ok y) l l'.
Proof.
  revert l'. induction l as [| x l IH]; intros l' H; cbn in H.
  - injection H as <-. constructor.
  - destruct (f x) as [y | e] eqn:Hx; [rewrite bind_Ok in H | discriminate H].
    destruct (mapM_r f l) as [ys | e]; [rewrite bind_Ok in H | discriminate H].
    injection H as <-. constructor; [exact Hx | now apply IH].
Qed.

(** What one round of [updatePos] does to the item of a mark. *)
Lemma update_item_spec (s : VideoSlider) (m : SliderMark) (it : RectItem)
    (r : SliderMark * RectItem) :
  update_item s (m, it) = Ok r ->
  r.1 = m /\
  _toPos s (inject_Z (val m)) true = Ok (item_pos_x r.2) /\
  item_h r.2 = get_height m (rect_height (_box_rect s)
                             - inject_Z (_header_height s))%Q /\
  (type m <> Track -> item_w r.2 = inject_Z (visual_width m)) /\
  item_x r.2 = item_x it /\ item_y r.2 = item_y it /\
  item_filled r.2 = item_filled it /\ item_z r.2 = item_z it.
Proof.
  unfold update_item. intros H.
  destruct (_toPos_Ok s (inject_Z (val m)) true) as [_ (p & Hp & _)].
  rewrite Hp in H.
  destruct (decide (type m = Track)) as [Ht | Ht].
  - destruct (end_val m) as [e |]; [| discriminate H].
    destruct (_toPos_Ok s (inject_Z (e - val m)) false) as [_ (w & Hw & _)].
    rewrite Hw in H. cbn in H. injection H as <-. cbn.
    repeat split; try reflexivity; try exact Hp. intros Hn. now destruct Hn.
  - cbn in H. injection H as <-. cbn.
    repeat split; try reflexivity; exact Hp.
Qed.

(** [updatePos], when it returns: the handle and the items of the marks are
    moved, nothing else changes and no item is added or lost. *)
Lemma updatePos_spec (s s' : VideoSlider) :
  updatePos s = Ok s' ->
  _marks s' = _marks s /\ _mark_labels s' = _mark_labels s /\
  _val_min s' = _val_min s /\ _val_max s' = _val_max s /\
  _val_main s' = _val_main s /\ _selection s' = _selection s /\
  _tick_marks s' = _tick_marks s /\ next_id s' = next_id s /\
  emitted s' = emitted s /\
  _toPos s (inject_Z (value s)) false = Ok (handle_x s') /\
  dom (_mark_items s') = dom (_mark_items s) /\
  (forall id m it',
     _mark_items s' !! id = Some (m, it') <->
     exists it, _mark_items s !! id = Some (m, it) /\
                update_item (set_handle_x (handle_x s') s) (m, it)
                  = Ok (m, it')).
Proof.
  unfold updatePos. intros H.
  destruct (_toPos s (inject_Z (value s)) false) as [hx | e] eqn:Hx;
    [rewrite bind_Ok in H | discriminate H].
  set (s1 := set_handle_x hx s) in *.
  set (f := fun kv : positive * (SliderMark * RectItem) =>
              it ← update_item s1 kv.2; mret (kv.1, it)) in *.
  destruct (mapM_r f (map_to_list (_mark_items s1))) as [items | e] eqn:Hi;
    [rewrite bind_Ok in H | discriminate H].
  injection H as <-. cbn [_marks _mark_labels _val_min _val_max _val_main
    _selection _tick_marks next_id emitted handle_x _mark_items
    set_mark_items].
  repeat (split; [reflexivity |]).
  apply mapM_r_Forall2 in Hi.
  change (_mark_items s1) with (_mark_items s) in Hi.
  assert (Hkeys : items.*1 = (map_to_list (_mark_items s)).*1).
  { clear -Hi. induction Hi as [| [k [m it]] y l l' Hy _ IH]; [reflexivity |].
    cbn. rewrite IH. f_equal. unfold f in Hy. cbn [fst snd] in Hy.
    destruct (update_item s1 (m, it)); cbn in Hy; [| discriminate Hy].
    now injection Hy as <-. }
  assert (Hnd : NoDup items.*1)
    by (rewrite Hkeys; apply NoDup_fst_map_to_list).
  split.
  { rewrite dom_list_to_map_L, Hkeys, <- dom_list_to_map_L.
    now rewrite list_to_map_to_list. }
  intros id m it'. rewrite <- (elem_of_list_to_map _ _ _ Hnd).
  split.
  - intros Hin. apply list_elem_of_lookup_1 in Hin as [i Hin].
    destruct (Forall2_lookup_r _ _ _ _ _ Hi Hin) as ([k [m0 it]] & Hx' & Hf).
    unfold f in Hf. cbn [fst snd] in Hf.
    destruct (update_item s1 (m0, it)) as [[m1 it1] |] eqn:Hu;
      cbn in Hf; [| discriminate Hf].
    injection Hf as -> -> ->.
    destruct (update_item_spec _ _ _ _ Hu) as [Em _]. cbn in Em. subst m0.
    exists it. split; [| exact Hu].
    apply elem_of_map_to_list. now apply list_elem_of_lookup_2 in Hx'.
  - intros (it & Hl & Hu).
    change (set_handle_x (handle_x s1) s) with s1 in Hu.
    apply elem_of_map_to_list, list_elem_of_lookup_1 in Hl as [i Hl].
    destruct (Forall2_lookup_l _ _ _ _ _ Hi Hl) as (y & Hy & Hf).
    unfold f in Hf. cbn [fst snd] in Hf. rewrite Hu in Hf. cbn in Hf.
    injection Hf as <-. now apply list_elem_of_lookup_2 in Hy.
Qed.

(** X13: the bar of a track mark fits the mark area. For a track mark
    within the value range whose row is below the number of track rows, with
    fewer rows skipped than stacked and a track height that is not negative,
    [addMark] creates an item of height 2 that starts below the header and
    ends above the bottom of the outline box, whose height is
    [getMarkAreaHeight() + _header_height]. *)
Theorem track_item_within_mark_area
    (l : SliderLayout) (id : positive) (m : SliderMark) (r : Z) :
  type m = Track -> row m = Some r -> 0 <= r < _track_rows l ->
  _val_min (widget l) <= val m <= _val_max (widget l) ->
  0 <= _track_stack_skip_count (widget l) < _max_tracks_stacked (widget l) ->
  0 <= _track_height (widget l) ->
  exists s' it,
    addMark (widget l) (id, m) false = Ok s' /\
    _mark_items s' !! id = Some (m, it) /\
    _header_height (widget l) + 3 <= item_y it /\
    item_y it + 2 <= getMarkAreaHeight l + _header_height (widget l) /\
    (item_h it == 2)%Q.
Proof.
  intros Ht Hrow Hr Hv HK Hth.
  destruct (getTrackColRow_slot (widget l) r) as (c & d & Hcr & Hslot);
    [lia |].
  pose proof (addMark_false_spec (widget l) id m Hv) as H.
  unfold v_offset in H. rewrite Hrow, Hcr, bind_Ok in H.
  destruct (decide (type m = Track)); [| contradiction].
  destruct H as (s' & it & Hadd & _ & Hitems & _ & Hy & Hh & _).
  exists s', it. split; [exact Hadd |].
  split; [rewrite Hitems; apply lookup_insert_eq |].
  assert (Htp : top_pad m = 2) by (unfold top_pad; now rewrite Ht).
  assert (Hgh : get_height m (rect_height (_box_rect (widget l))
                  - inject_Z (_header_height (widget l))) = 2%Q)
    by (unfold get_height; now rewrite Ht).
  rewrite Hgh in Hh. cbn [fst snd] in Hy. rewrite Htp in Hy.
  unfold getMarkAreaHeight, getMinMaxHeights.
  destruct (Z.eqb_spec (_track_rows l) 0); [lia |]. cbn [snd].
  unfold getTrackVerticalPos in Hy.
  set (th := _track_height (widget l)) in *.
  set (M := _max_tracks_stacked (widget l)) in *.
  set (K := _track_stack_skip_count (widget l)) in *.
  split; [| split; [| exact Hh]].
  - destruct Hslot as [(_ & -> & ->) | (_ & Hc & Hd & _)].
    + cbn in Hy. nia.
    + destruct (Z.eqb_spec c 0); [lia |]. nia.
  - destruct Hslot as [(Hlt & -> & ->) | (Hge & Hc & Hd & _)].
    + cbn in Hy.
      assert (r * th <= (Z.min (_track_rows l) M - 1) * th) by nia.
      nia.
    + destruct (Z.eqb_spec c 0); [lia |].
      assert (Z.min (_track_rows l) M = M) by lia.
      assert (th * K + th * d <= (M - 1) * th) by nia.
      nia.
Qed.

Lemma track_item_within_mark_area_witness :
  exists s' it,
    addMark (init 0 100 0 199 200) (4%positive, track_mark 20 30 130) false
      = Ok s' /\
    _mark_items s' !! 4%positive = Some (track_mark 20 30 130, it) /\
    20 + 3 <= item_y it /\
    item_y it + 2
      <= getMarkAreaHeight {| widget := init 0 100 0 199 200;
                              _track_rows := 140; _min_height := 39 |}
         + 20 /\
    (item_h it == 2)%Q.
Proof.
  apply (track_item_within_mark_area
           {| widget := init 0 100 0 199 200;
              _track_rows := 140; _min_height := 39 |}
           4%positive (track_mark 20 30 130) 130);
    try reflexivity; cbn; lia.
Defined.

(** [addMark] with redrawing is [addMark] without, followed by
    [updatePos], unless the mark is refused. *)
Lemma addMark_true_eq (s : VideoSlider) (id : positive) (m : SliderMark) :
  _val_min s <= val m <= _val_max s ->
  addMark s (id, m) true = (s2 ← addMark s (id, m) false; updatePos s2).
Proof.
  intros Hv. unfold addMark.
  destruct (Z.gtb_spec (val m) (_val_max s)); [lia |].
  destruct (Z.ltb_spec (val m) (_val_min s)); [lia |].
  cbn zeta.
  match goal with
  | |- mbind _ ?e = mbind _ (mbind _ ?e) => destruct e as [y | e']
  end; reflexivity.
Qed.

(** What [addMark] leaves behind, with or without redrawing. *)
Lemma addMark_spec (s s' : VideoSlider) (id : positive) (m : SliderMark)
    (update : bool) :
  addMark s (id, m) update = Ok s' ->
  _val_min s' = _val_min s /\ _val_max s' = _val_max s /\
  _val_main s' = _val_main s /\ _selection s' = _selection s /\
  _tick_marks s' = _tick_marks s /\ next_id s' = next_id s /\
  emitted s' = emitted s /\
  ((_val_min s <= val m <= _val_max s /\
    _marks s' = <[id := m]> (_marks s) /\
    dom (_mark_items s') = {[ id ]} ∪ dom (_mark_items s) /\
    _mark_labels s' =
      (if bool_decide (type m = Tick)
       then <[id := (m, val m + 1)]> (_mark_labels s)
       else _mark_labels s)) \/
   (~ (_val_min s <= val m <= _val_max s) /\ s' = s)).
Proof.
  intros H.
  destruct (decide (_val_min s <= val m <= _val_max s)) as [Hv | Hv].
  - assert (H2 : exists s2, addMark s (id, m) false = Ok s2 /\
                   (s' = s2 \/ updatePos s2 = Ok s')).
    { destruct update; [| eauto].
      rewrite addMark_true_eq in H by exact Hv.
      destruct (addMark s (id, m) false) as [s2 | e]; [| discriminate H].
      rewrite bind_Ok in H. eauto. }
    destruct H2 as (s2 & Hadd & Hs').
    pose proof (addMark_false_spec s id m Hv) as Hspec.
    destruct (v_offset s m) as [y | e];
      [| rewrite Hspec in Hadd; discriminate Hadd].
    destruct Hspec as (s2' & it & Hadd' & Hm & Hi & Hl & _ & _ & Hlo & Hhi
                       & Hmain & Hsel & Htm & Hnext & Hem & _).
    rewrite Hadd in Hadd'. injection Hadd' as <-.
    assert (Hdom : dom (_mark_items s2) = {[ id ]} ∪ dom (_mark_items s))
      by (rewrite Hi; apply dom_insert_L).
    destruct Hs' as [-> | Hup].
    + repeat (split; [assumption |]). left. auto.
    + destruct (updatePos_spec _ _ Hup)
        as (Hm' & Hl' & Hlo' & Hhi' & Hmain' & Hsel' & Htm' & Hnext' & Hem'
            & _ & Hdom' & _).
      repeat (split; [congruence |]). left.
      split; [exact Hv |]. split; [congruence |].
      split; [congruence |]. congruence.
  - assert (s' = s).
    { unfold addMark in H.
      destruct (Z.gtb_spec (val m) (_val_max s)); [now injection H |].
      destruct (Z.ltb_spec (val m) (_val_min s)); [now injection H |].
      lia. }
    subst s'. repeat (split; [reflexivity |]). right. auto.
Qed.

(** X14: [addMark] keeps the marks within the value range: whenever it
    returns, with or without redrawing, the minimum and the maximum are as
    before and, if every mark of the mark set lay between them before, every
    mark does so afterwards. *)
Theorem addMark_keeps_marks_in_range
    (s s' : VideoSlider) (new_mark : positive * SliderMark) (update : bool) :
  addMark s new_mark update = Ok s' ->
  (forall id m, _marks s !! id = Some m ->
     _val_min s <= val m <= _val_max s) ->
  _val_min s' = _val_min s /\ _val_max s' = _val_max s /\
  forall id m, _marks s' !! id = Some m ->
    _val_min s' <= val m <= _val_max s'.
Proof.
  destruct new_mark as [id0 m0]. intros H Hinv.
  destruct (addMark_spec _ _ _ _ _ H)
    as (Hlo & Hhi & _ & _ & _ & _ & _ & Hcase).
  split; [exact Hlo |]. split; [exact Hhi |].
  intros id m Hm. rewrite Hlo, Hhi.
  destruct Hcase as [(Hv & Hmarks & _) | (_ & ->)]; [| now apply (Hinv id)].
  rewrite Hmarks in Hm.
  destruct (decide (id0 = id)) as [-> | Hne].
  - rewrite lookup_insert_eq in Hm. now injection Hm as <-.
  - rewrite lookup_insert_ne in Hm by exact Hne. now apply (Hinv id).
Qed.

Lemma addMark_keeps_marks_in_range_witness :
  exists s',
    addMark (set_marks {[ 2%positive := simple_mark 7 ]}
                       (init 0 100 0 199 200))
            (5%positive, simple_mark 42) true = Ok s' /\
    _val_min s' = 0 /\ _val_max s' = 100 /\
    forall id m, _marks s' !! id = Some m ->
      _val_min s' <= val m <= _val_max s'.
Proof.
  eexists. split; [vm_compute; reflexivity |].
  eapply (addMark_keeps_marks_in_range
            (set_marks {[ 2%positive := simple_mark 7 ]}
                       (init 0 100 0 199 200))
            _ (5%positive, simple_mark 42) true).
  - vm_compute. reflexivity.
  - intros id m Hm. cbn [_marks set_marks] in Hm.
    apply lookup_singleton_Some in Hm as [_ <-]. cbn. lia.
Defined.

(** X15: every mark has its item. If the marks that have an item are those
    of the mark set, and only marks of the mark set have a label, then the
    same holds after [addMark] (whenever it returns, with or without
    redrawing) and after [removeMark]; [clearMarks] leaves no mark, no item
    and no label. *)
Theorem marks_have_items
    (s : VideoSlider) (new_mark : positive * SliderMark) (update : bool)
    (mark : positive) :
  dom (_mark_items s) = dom (_marks s) ->
  dom (_mark_labels s) ⊆ dom (_marks s) ->
  (forall s', addMark s new_mark update = Ok s' ->
     dom (_mark_items s') = dom (_marks s') /\
     dom (_mark_labels s') ⊆ dom (_marks s')) /\
  (dom (_mark_items (removeMark s mark)) = dom (_marks (removeMark s mark)) /\
   dom (_mark_labels (removeMark s mark)) ⊆ dom (_marks (removeMark s mark)) /\
   mark ∉ dom (_marks (removeMark s mark))) /\
  (_marks (clearMarks s) = ∅ /\ _mark_items (clearMarks s) = ∅ /\
   _mark_labels (clearMarks s) = ∅).
Proof.
  intros Hitems Hlabels. split; [| split].
  - destruct new_mark as [id m]. intros s' H.
    destruct (addMark_spec _ _ _ _ _ H) as (_ & _ & _ & _ & _ & _ & _ & Hcase).
    destruct Hcase as [(_ & Hm & Hi & Hl) | (_ & ->)]; [| auto].
    rewrite Hm, Hi, Hl, dom_insert_L, Hitems. split; [reflexivity |].
    destruct (bool_decide (type m = Tick)); [rewrite dom_insert_L |];
      set_solver.
  - cbn [removeMark _marks _mark_items _mark_labels set_marks set_mark_items
         set_mark_labels].
    rewrite !dom_delete_L, Hitems. split; [reflexivity |].
    split; set_solver.
  - repeat split; reflexivity.
Qed.

Lemma marks_have_items_witness :
  (forall s', addMark (init 0 100 0 199 200) (5%positive, simple_mark 42) true
              = Ok s' ->
     dom (_mark_items s') = dom (_marks s') /\
     dom (_mark_labels s') ⊆ dom (_marks s')) /\
  (dom (_mark_items (removeMark (init 0 100 0 199 200) 5%positive))
     = dom (_marks (removeMark (init 0 100 0 199 200) 5%positive)) /\
   dom (_mark_labels (removeMark (init 0 100 0 199 200) 5%positive))
     ⊆ dom (_marks (removeMark (init 0 100 0 199 200) 5%positive)) /\
   5%positive ∉ dom (_marks (removeMark (init 0 100 0 199 200) 5%positive))) /\
  (_marks (clearMarks (init 0 100 0 199 200)) = ∅ /\
   _mark_items (clearMarks (init 0 100 0 199 200)) = ∅ /\
   _mark_labels (clearMarks (init 0 100 0 199 200)) = ∅).
Proof.
  apply (marks_have_items (init 0 100 0 199 200)
           (5%positive, simple_mark 42) true 5%positive).
  - reflexivity.
  - reflexivity.
Defined.

(** Two widgets with the same attributes are the same. *)
Lemma VideoSlider_eq (s1 s2 : VideoSlider) :
  _val_min s1 = _val_min s2 ->
  _val_max s1 = _val_max s2 ->
  _val_main s1 = _val_main s2 ->
  _selection s1 = _selection s2 ->
  _marks s1 = _marks s2 ->
  _mark_items s1 = _mark_items s2 ->
  _mark_labels s1 = _mark_labels s2 ->
  _tick_marks s1 = _tick_marks s2 ->
  _box_rect s1 = _box_rect s2 ->
  handle_width s1 = handle_width s2 ->
  handle_x s1 = handle_x s2 ->
  select_box s1 = select_box s2 ->
  _header_height s1 = _header_height s2 ->
  _track_height s1 = _track_height s2 ->
  _max_tracks_stacked s1 = _max_tracks_stacked s2 ->
  _track_stack_skip_count s1 = _track_stack_skip_count s2 ->
  widget_width s1 = widget_width s2 ->
  emitted s1 = emitted s2 ->
  next_id s1 = next_id s2 ->
  s1 = s2.
Proof.
  destruct s1, s2. cbn. intros. subst. reflexivity.
Qed.

(** X16: adding a mark and removing it again. After [addMark] (without
    redrawing) of a mark within the value range, the mark is in the mark set
    under its identity and the other entries are as before; [removeMark]
    then leaves no mark, item or label under that identity, and brings the
    widget back to the state before the mark was added when the identity
    was not in use. *)
Theorem addMark_then_removeMark
    (s s' : VideoSlider) (id : positive) (m : SliderMark) :
  _val_min s <= val m <= _val_max s ->
  addMark s (id, m) false = Ok s' ->
  _marks s' !! id = Some m /\
  (forall j, j <> id -> _marks s' !! j = _marks s !! j) /\
  _marks (removeMark s' id) !! id = None /\
  _mark_items (removeMark s' id) !! id = None /\
  _mark_labels (removeMark s' id) !! id = None /\
  (_marks s !! id = None -> _mark_items s !! id = None ->
   _mark_labels s !! id = None -> removeMark s' id = s).
Proof.
  intros Hv Hadd.
  pose proof (addMark_false_spec s id m Hv) as Hspec.
  destruct (v_offset s m) as [y | e];
    [| rewrite Hspec in Hadd; discriminate Hadd].
  destruct Hspec as (s2 & it & Hadd' & Hm & Hi & Hl & _ & _ & Hlo & Hhi
                     & Hmain & Hsel & Htm & Hnext & Hem & Hbox & Hhw & Hhx
                     & Hsb & Hhh & Hth & Hmts & Hsk & Hww).
  rewrite Hadd in Hadd'. injection Hadd' as <-.
  split; [rewrite Hm; apply lookup_insert_eq |].
  split; [intros j Hj; rewrite Hm; now apply lookup_insert_ne |].
  cbn [removeMark _marks _mark_items _mark_labels set_marks set_mark_items
       set_mark_labels].
  split; [apply lookup_delete_eq |]. split; [apply lookup_delete_eq |].
  split; [apply lookup_delete_eq |].
  intros Hnm Hni Hnl.
  assert (Em : delete id (_marks s') = _marks s)
    by (rewrite Hm, delete_insert_eq; now apply delete_id).
  assert (Ei : delete id (_mark_items s') = _mark_items s)
    by (rewrite Hi, delete_insert_eq; now apply delete_id).
  assert (El : delete id (_mark_labels s') = _mark_labels s).
  { rewrite Hl. destruct (bool_decide (type m = Tick));
      [rewrite delete_insert_eq |]; now apply delete_id. }
  apply VideoSlider_eq;
    cbn [removeMark set_marks set_mark_items set_mark_labels
         _val_min _val_max _val_main _selection _marks _mark_items
         _mark_labels _tick_marks _box_rect handle_width handle_x select_box
         _header_height _track_height _max_tracks_stacked
         _track_stack_skip_count widget_width emitted next_id];
    assumption.
Qed.

Lemma addMark_then_removeMark_witness :
  exists s',
    addMark (init 0 100 0 199 200) (5%positive, tick_mark 9) false = Ok s' /\
    _marks s' !! 5%positive = Some (tick_mark 9) /\
    removeMark s' 5%positive = init 0 100 0 199 200.
Proof.
  eexists. split; [vm_compute; reflexivity |].
  match goal with
  | |- context [removeMark ?s' _] =>
      destruct (addMark_then_removeMark (init 0 100 0 199 200) s' 5%positive
                  (tick_mark 9)) as (H1 & _ & _ & _ & _ & H2)
  end.
  - cbn. lia.
  - vm_compute. reflexivity.
  - split; [exact H1 |]. apply H2; reflexivity.
Defined.

(** X17: [updatePos], whenever it returns, has put the handle at the
    position of the value and the item of every mark at the position of the
    mark ([_toPos] with [center=True]); the marks that have an item, the mark
    set, the labels, the value and the selection are as before. *)
Theorem updatePos_places_items (s s' : VideoSlider) :
  updatePos s = Ok s' ->
  _toPos s (inject_Z (value s)) false = Ok (handle_x s') /\
  (forall id m it, _mark_items s' !! id = Some (m, it) ->
     _toPos s (inject_Z (val m)) true = Ok (item_pos_x it)) /\
  dom (_mark_items s') = dom (_mark_items s) /\
  _marks s' = _marks s /\ _mark_labels s' = _mark_labels s /\
  value s' = value s /\ _selection s' = _selection s.
Proof.
  intros H.
  destruct (updatePos_spec _ _ H)
    as (Hm & Hl & _ & _ & Hmain & Hsel & _ & _ & _ & Hx & Hdom & Hitems).
  split; [exact Hx |]. split; [| auto].
  intros id m it Hit. apply Hitems in Hit as (it0 & _ & Hu).
  apply update_item_spec in Hu as (_ & Hp & _). exact Hp.
Qed.

Lemma updatePos_places_items_witness :
  exists s',
    updatePos (set_mark_items
                 {[ 3%positive :=
                      (simple_mark 40,
                       {| item_x := 0; item_y := 23; item_w := 0; item_h := 12;
                          item_pos_x := 0; item_filled := true;
                          item_z := 1 |}) ]}
                 (init 0 100 50 199 200)) = Ok s' /\
    (handle_x s' == 193 # 2)%Q /\
    forall id m it, _mark_items s' !! id = Some (m, it) ->
      _toPos (init 0 100 50 199 200) (inject_Z (val m)) true
        = Ok (item_pos_x it).
Proof.
  eexists. split; [vm_compute; reflexivity |].
  match goal with
  | |- context [handle_x ?s'] =>
      destruct (updatePos_places_items
                  (set_mark_items
                     {[ 3%positive :=
                          (simple_mark 40,
                           {| item_x := 0; item_y := 23; item_w := 0;
                              item_h := 12; item_pos_x := 0;
                              item_filled := true; item_z := 1 |}) ]}
                     (init 0 100 50 199 200)) s')
        as (_ & H & _)
  end.
  - vm_compute. reflexivity.
  - split; [reflexivity | exact H].
Defined.

End Marks.

(** ** Moving the handle *)

Section Handle.

(** The order of the sort keys is total and transitive. *)
Lemma key_le_total (k1 k2 : Z * bool) :
  key_le k1 k2 = true \/ key_le k2 k1 = true.
Proof.
  destruct k1 as [a1 b1], k2 as [a2 b2]. unfold key_le. cbn [fst snd].
  destruct (Z.ltb_spec a1 a2); [now left |].
  destruct (Z.ltb_spec a2 a1); [now right |].
  assert (a1 = a2) by lia. subst a2. rewrite Z.eqb_refl.
  destruct b1, b2; cbn; tauto.
Qed.

Lemma key_le_trans (k1 k2 k3 : Z * bool) :
  key_le k1 k2 = true -> key_le k2 k3 = true -> key_le k1 k3 = true.
Proof.
  destruct k1 as [a1 b1], k2 as [a2 b2], k3 as [a3 b3].
  unfold key_le. cbn [fst snd]. intros H12 H23.
  destruct (Z.ltb_spec a1 a2), (Z.ltb_spec a2 a3), (Z.ltb_spec a1 a3);
    try reflexivity; try lia;
    destruct (Z.eqb_spec a1 a2), (Z.eqb_spec a2 a3), (Z.eqb_spec a1 a3);
    try lia; try discriminate;
    destruct b1, b2, b3; cbn in *; congruence.
Qed.

Context {A K : Type} (le : K -> K -> bool) (key : A -> K).
Hypothesis le_total : forall k1 k2, le k1 k2 = true \/ le k2 k1 = true.
Hypothesis le_trans :
  forall k1 k2 k3, le k1 k2 = true -> le k2 k3 = true -> le k1 k3 = true.

Let head_least (l : list A) : Prop :=
  forall h t, l = h :: t -> forall y, y ∈ l -> le (key h) (key y) = true.

Lemma insert_by_key_head_least (x : A) (l : list A) :
  head_least l -> head_least (insert_by_key le key x l).
Proof.
  intros Hl h t Heq y Hy.
  assert (Hrefl : forall k, le k k = true)
    by (intros k; destruct (le_total k k); assumption).
  apply insert_by_key_elem in Hy.
  destruct l as [| z l']; cbn in Heq.
  - injection Heq as <- <-. destruct Hy as [-> | Hy]; [apply Hrefl |].
    now apply elem_of_nil in Hy.
  - destruct (le (key x) (key z)) eqn:Hxz; injection Heq as <- <-.
    + destruct Hy as [-> | Hy]; [apply Hrefl |].
      apply (le_trans _ (key z)); [exact Hxz |].
      now apply (Hl z l').
    + destruct Hy as [-> | Hy].
      * destruct (le_total (key x) (key z)); congruence.
      * now apply (Hl z l').
Qed.

Lemma insert_by_key_elem_rev (x y : A) (l : list A) :
  y = x \/ y ∈ l -> y ∈ insert_by_key le key x l.
Proof.
  induction l as [| z l IH]; cbn.
  - intros [-> | H]; [left | now apply elem_of_nil in H].
  - destruct (le (key x) (key z)).
    + intros [-> | H]; [left | now right].
    + intros [-> | H]; [right; apply IH; now left |].
      apply elem_of_cons in H as [-> | H]; [left | right; apply IH; now right].
Qed.

(** The first item of a sorted list has the least key. *)
Lemma sort_by_key_head_least (l : list A) (h : A) (t : list A) :
  sort_by_key le key l = h :: t ->
  h ∈ l /\ forall y, y ∈ l -> le (key h) (key y) = true.
Proof.
  intros Hs.
  assert (Hl : head_least (sort_by_key le key l)).
  { clear Hs. induction l as [| x l IH]; [intros ? ? Heq; discriminate Heq |].
    cbn. now apply insert_by_key_head_least. }
  assert (Hin : forall y, y ∈ l -> y ∈ sort_by_key le key l).
  { clear. induction l as [| x l IH]; cbn; [trivial |].
    intros y Hy. apply insert_by_key_elem_rev.
    apply elem_of_cons in Hy as [-> | Hy]; [now left | right; auto]. }
  split.
  - apply (sort_by_key_elem le key). rewrite Hs. left.
  - intros y Hy. apply (Hl h t Hs). now apply Hin.
Qed.

End Handle.

(** [moveHandle], when it returns: the three conversions have returned and
    the widget is the one in which the value chosen was set. *)
Lemma moveHandle_spec (s s' : VideoSlider) (x y : Q) :
  moveHandle s x y = Ok s' ->
  let x0 := Qmin (Qmax (x - handle_width s / 2) 0)
                 (rect_width (_box_rect s) - handle_width s) in
  exists v0 hl hr hx,
    _toVal s x0 false = Ok v0 /\
    _toVal s (x0 - handle_width s / 2) false = Ok hl /\
    _toVal s (x0 + handle_width s / 2) false = Ok hr /\
    let v := match sort_by_key key_le (fun m => (Z.abs (m - v0), m >? v0))
                     (filter (fun m => hl < m < hr) (val <$> marks_of s)) with
             | m :: _ => m
             | [] => v0
             end in
    s' = (if negb (value s =? v)
          then set_emitted (emitted s ++ [valueChanged v])
                           (set_handle_x hx (set_val_main v s))
          else set_handle_x hx (set_val_main v s)).
Proof.
  intros H x0. unfold moveHandle in H. fold x0 in H.
  destruct (_toVal s x0 false) as [v0 | e];
    [rewrite bind_Ok in H | discriminate H].
  destruct (_toVal s (x0 - handle_width s / 2) false) as [hl | e];
    [rewrite bind_Ok in H | discriminate H].
  destruct (_toVal s (x0 + handle_width s / 2) false) as [hr | e];
    [rewrite bind_Ok in H | discriminate H].
  exists v0, hl, hr.
  set (v := match sort_by_key key_le (fun m => (Z.abs (m - v0), m >? v0))
                    (filter (fun m => hl < m < hr) (val <$> marks_of s)) with
            | m :: _ => m
            | [] => v0
            end) in *.
  destruct (setValue_Ok s v) as [hx Hset]. exists hx.
  repeat (split; [reflexivity |]).
  rewrite Hset, bind_Ok in H. cbv zeta. fold v.
  destruct (negb (value s =? v)); injection H as <-; reflexivity.
Qed.

(** X18: whenever [moveHandle] returns, it has emitted [valueChanged] with
    the new value if the value differs from the one before, and nothing if
    the value is the same; the bounds, the marks and the selection are not
    touched. *)
Theorem moveHandle_emits_when_changed (s s' : VideoSlider) (x y : Q) :
  moveHandle s x y = Ok s' ->
  emitted s' = (if value s =? value s' then emitted s
                else emitted s ++ [valueChanged (value s')]) /\
  _val_min s' = _val_min s /\ _val_max s' = _val_max s /\
  _marks s' = _marks s /\ _selection s' = _selection s.
Proof.
  intros H. apply moveHandle_spec in H.
  destruct H as (v0 & hl & hr & hx & _ & _ & _ & ->).
  cbv zeta.
  destruct (value s =? _) eqn:E; cbn [negb]; cbn; rewrite E;
    repeat split; reflexivity.
Qed.

Lemma moveHandle_emits_when_changed_witness :
  exists s',
    moveHandle (init 0 100 15 199 200) 80 5 = Ok s' /\
    emitted s' = (if 15 =? value s' then []
                  else [] ++ [valueChanged (value s')]) /\
    value s' = 40.
Proof.
  eexists. split; [vm_compute; reflexivity |].
  match goal with
  | |- context [value ?s'] =>
      destruct (moveHandle_emits_when_changed (init 0 100 15 199 200) s' 80 5)
        as (H & _)
  end.
  - vm_compute. reflexivity.
  - split; [exact H | reflexivity].
Defined.

(** X19: snapping. Whenever [moveHandle] returns, the new value is the value
    under the clamped pointer if no mark lies strictly between the values
    under the two edges of the handle; otherwise it is one of those marks,
    none of them is nearer to the value under the pointer, and of two
    equally near ones it is the lower. *)
Theorem moveHandle_snaps_to_nearest_mark (s s' : VideoSlider) (x y : Q) :
  moveHandle s x y = Ok s' ->
  let x0 := Qmin (Qmax (x - handle_width s / 2) 0)
                 (rect_width (_box_rect s) - handle_width s) in
  exists v0 hl hr,
    _toVal s x0 false = Ok v0 /\
    _toVal s (x0 - handle_width s / 2) false = Ok hl /\
    _toVal s (x0 + handle_width s / 2) false = Ok hr /\
    let in_handle := filter (fun m => hl < m < hr) (val <$> marks_of s) in
    (in_handle = [] -> value s' = v0) /\
    (in_handle <> [] -> value s' ∈ in_handle) /\
    (forall m, m ∈ in_handle ->
       Z.abs (value s' - v0) <= Z.abs (m - v0) /\
       (Z.abs (value s' - v0) = Z.abs (m - v0) -> value s' <= m)).
Proof.
  intros H x0. apply moveHandle_spec in H. fold x0 in H.
  destruct H as (v0 & hl & hr & hx & H0 & Hl & Hr & Hs').
  exists v0, hl, hr. repeat (split; [assumption |]).
  cbv zeta in Hs' |- *.
  set (in_handle := filter (fun m => hl < m < hr) (val <$> marks_of s)) in *.
  set (key := fun m : Z => (Z.abs (m - v0), m >? v0)) in *.
  assert (Hval : value s' = match sort_by_key key_le key in_handle with
                            | m :: _ => m
                            | [] => v0
                            end).
  { rewrite Hs'. now destruct (negb _). }
  clear Hs'.
  destruct (sort_by_key key_le key in_handle) as [| h t] eqn:Hsort.
  - assert (in_handle = []).
    { destruct in_handle as [| z l]; [reflexivity |].
      assert (Hz : z ∈ sort_by_key key_le key (z :: l))
        by (cbn; apply insert_by_key_elem_rev; now left).
      rewrite Hsort in Hz. now apply elem_of_nil in Hz. }
    split; [auto |]. split; [congruence |].
    intros m Hm. rewrite H in Hm. now apply elem_of_nil in Hm.
  - destruct (sort_by_key_head_least key_le key key_le_total key_le_trans
                in_handle h t Hsort) as [Hin Hleast].
    split; [intros E; rewrite E in Hin; now apply elem_of_nil in Hin |].
    split; [intros _; now rewrite Hval |].
    intros m Hm. specialize (Hleast m Hm). rewrite Hval.
    unfold key_le, key in Hleast. cbn [fst snd] in Hleast.
    destruct (Z.ltb_spec (Z.abs (h - v0)) (Z.abs (m - v0))); [lia |].
    cbn in Hleast. apply andb_true_iff in Hleast as [E Himp].
    apply Z.eqb_eq in E. split; [lia |]. intros _.
    destruct (Z.gtb_spec h v0), (Z.gtb_spec m v0); cbn in Himp;
      try discriminate; lia.
Qed.

Lemma moveHandle_snaps_to_nearest_mark_witness :
  exists s' v0 hl hr,
    moveHandle (set_marks {[ 3%positive := simple_mark 40;
                             4%positive := simple_mark 42 ]}
                          (init 0 100 15 199 200)) (821 # 10) 5 = Ok s' /\
    v0 = 41 /\ hl = 39 /\ hr = 43 /\ value s' = 40 /\
    (forall m,
       m ∈ filter (fun m => hl < m < hr)
             (val <$> marks_of
                (set_marks {[ 3%positive := simple_mark 40;
                              4%positive := simple_mark 42 ]}
                           (init 0 100 15 199 200))) ->
       Z.abs (value s' - v0) <= Z.abs (m - v0) /\
       (Z.abs (value s' - v0) = Z.abs (m - v0) -> value s' <= m)).
Proof.
  eexists.
  match goal with
  | |- context [moveHandle ?s ?x ?y = Ok ?s'] =>
      assert (Hm : moveHandle s x y = Ok s') by (vm_compute; reflexivity);
      destruct (moveHandle_snaps_to_nearest_mark s s' x y Hm)
        as (v0 & hl & hr & H0 & Hl & Hr & _ & _ & Hnear)
  end.
  exists v0, hl, hr. split; [exact Hm |].
  vm_compute in H0. vm_compute in Hl. vm_compute in Hr.
  injection H0 as <-. injection Hl as <-. injection Hr as <-.
  repeat (split; [reflexivity |]). exact Hnear.
Defined.

(** ** Contiguously marked values, in general *)

Section Contiguous.

Variable s : VideoSlider.

Lemma decrement_le (v d : Z) :
  decrementContiguousMarkedVal s v = Ok d -> d <= v.
Proof.
  unfold decrementContiguousMarkedVal. intros H.
  destruct (collect _ (marks_of s)) as [starts | e];
    [rewrite bind_Ok in H | discriminate H].
  destruct (Z.ltb_spec (min_default starts v) v);
    [injection H as <-; lia |].
  destruct (bool_decide _); injection H as <-; lia.
Qed.

Lemma increment_ge (v i : Z) :
  incrementContiguousMarkedVal s v = Ok i -> v <= i.
Proof.
  unfold incrementContiguousMarkedVal. intros H.
  destruct (collect _ (marks_of s)) as [ends | e];
    [rewrite bind_Ok in H | discriminate H].
  destruct (Z.gtb_spec (max_default ends v) v);
    [injection H as <-; lia |].
  destruct (bool_decide _); injection H as <-; lia.
Qed.

Lemma start_loop_le (last_val dec_val r : Z) :
  start_loop s last_val dec_val = Ok r -> r <= dec_val.
Proof.
  remember (Z.to_nat (last_val - _val_min s)) as n eqn:Hn.
  revert last_val dec_val Hn.
  induction n as [n IH] using lt_wf_ind. intros last_val dec_val Hn H.
  rewrite start_loop_eq in H.
  destruct (decide _) as [[H1 H2] | _]; [| injection H as <-; lia].
  destruct (decrementContiguousMarkedVal s dec_val) as [d |] eqn:Hd;
    [rewrite bind_Ok in H | discriminate H].
  apply decrement_le in Hd.
  apply (IH (Z.to_nat (dec_val - _val_min s))) in H; [lia | lia | reflexivity].
Qed.

Lemma end_loop_ge (last_val inc_val r : Z) :
  end_loop s last_val inc_val = Ok r -> inc_val <= r.
Proof.
  remember (Z.to_nat (_val_max s - last_val)) as n eqn:Hn.
  revert last_val inc_val Hn.
  induction n as [n IH] using lt_wf_ind. intros last_val inc_val Hn H.
  rewrite end_loop_eq in H.
  destruct (decide _) as [[H1 H2] | _]; [| injection H as <-; lia].
  destruct (incrementContiguousMarkedVal s inc_val) as [i |] eqn:Hi;
    [rewrite bind_Ok in H | discriminate H].
  apply increment_ge in Hi.
  apply (IH (Z.to_nat (_val_max s - inc_val))) in H; [lia | lia | reflexivity].
Qed.

(** X20: whenever [contiguousSelectionMarksAroundVal(v)] returns, either
    [v] is not marked and the widget is left as it was, or [v] is marked
    and the two ends handed to [setSelection] enclose it:
    [getStartContiguousMark(v) <= v <= getEndContiguousMark(v)]. *)
Theorem contiguous_selection_encloses_value (s' : VideoSlider) (v : Z) :
  contiguousSelectionMarksAroundVal s v = Ok s' ->
  (isMarkedVal s v = Ok false /\ s' = s) \/
  (isMarkedVal s v = Ok true /\
   exists lo hi,
     getStartContiguousMark s v = Ok lo /\
     getEndContiguousMark s v = Ok hi /\
     lo <= v <= hi /\
     setSelection s lo hi = Ok s').
Proof.
  unfold contiguousSelectionMarksAroundVal. intros H.
  destruct (isMarkedVal s v) as [[|] | e];
    [rewrite bind_Ok in H | rewrite bind_Ok in H | discriminate H];
    cbn [negb] in H.
  - right. split; [reflexivity |].
    destruct (getStartContiguousMark s v) as [lo |] eqn:Hlo;
      [rewrite bind_Ok in H | discriminate H].
    destruct (getEndContiguousMark s v) as [hi |] eqn:Hhi;
      [rewrite bind_Ok in H | discriminate H].
    exists lo, hi. repeat (split; [reflexivity |]). split; [| exact H].
    unfold getStartContiguousMark in Hlo.
    unfold getEndContiguousMark in Hhi.
    destruct (decrementContiguousMarkedVal s v) as [d |] eqn:Hd;
      [rewrite bind_Ok in Hlo | discriminate Hlo].
    destruct (incrementContiguousMarkedVal s v) as [i |] eqn:Hi;
      [rewrite bind_Ok in Hhi | discriminate Hhi].
    apply decrement_le in Hd. apply increment_ge in Hi.
    apply start_loop_le in Hlo. apply end_loop_ge in Hhi. lia.
  - left. split; [reflexivity |]. now injection H as <-.
Qed.

End Contiguous.

Lemma contiguous_selection_encloses_value_witness :
  exists s',
    contiguousSelectionMarksAroundVal
      (set_marks {[ 1%positive := simple_mark 5; 2%positive := simple_mark 6;
                    3%positive := track_mark 6 9 0 ]}
                 (init 0 100 0 199 200)) 6 = Ok s' /\
    exists lo hi,
      lo <= 6 <= hi /\
      setSelection
        (set_marks {[ 1%positive := simple_mark 5; 2%positive := simple_mark 6;
                      3%positive := track_mark 6 9 0 ]}
                   (init 0 100 0 199 200)) lo hi = Ok s'.
Proof.
  eexists.
  match goal with
  | |- context [contiguousSelectionMarksAroundVal ?s ?v = Ok ?s'] =>
      assert (Hc : contiguousSelectionMarksAroundVal s v = Ok s')
        by (vm_compute; reflexivity);
      destruct (contiguous_selection_encloses_value s s' v Hc)
        as [[Hf _] | (_ & lo & hi & _ & _ & Hv & Hset)]
  end.
  - vm_compute in Hf. discriminate Hf.
  - split; [exact Hc |]. exists lo, hi. split; [exact Hv | exact Hset].
Defined.

(** ** A run of marked values *)

Section PointRun.

Variables (s : VideoSlider) (a b : Z).

(** No track marks; the values from [a] to [b] are all marked, the values
    next to them are not, and the run lies within the value range. *)
Hypothesis no_track : forall m, m ∈ marks_of s -> type m <> Track.
Hypothesis run_marked : forall z, a <= z <= b -> z ∈ val <$> marks_of s.
Hypothesis before_unmarked : a - 1 ∉ val <$> marks_of s.
Hypothesis after_unmarked : b + 1 ∉ val <$> marks_of s.
Hypothesis run_above_min : _val_min s <= a.
Hypothesis run_below_max : b <= _val_max s.

Lemma collect_no_track {B} (F : SliderMark -> result (option B))
    (l : list SliderMark) :
  (forall m, m ∈ l -> type m <> Track) ->
  collect (fun mark => if decide (type mark = Track) then F mark
                       else mret None) l = Ok [].
Proof.
  induction l as [| m l IH]; intros Hl; [reflexivity |].
  cbn [collect]. destruct (decide (type m = Track)) as [E | _].
  - exfalso. apply (Hl m); [left | exact E].
  - rewrite IH by (intros m' Hm'; apply Hl; now right). reflexivity.
Qed.

Lemma decrement_point (v : Z) :
  decrementContiguousMarkedVal s v
  = Ok (if bool_decide (v - 1 ∈ val <$> marks_of s) then v - 1 else v).
Proof.
  unfold decrementContiguousMarkedVal.
  rewrite (collect_no_track _ _ no_track), bind_Ok. cbn [min_default].
  rewrite Z.ltb_irrefl. now destruct (bool_decide _).
Qed.

Lemma increment_point (v : Z) :
  incrementContiguousMarkedVal s v
  = Ok (if bool_decide (v + 1 ∈ val <$> marks_of s) then v + 1 else v).
Proof.
  unfold incrementContiguousMarkedVal.
  rewrite (collect_no_track _ _ no_track), bind_Ok. cbn [max_default].
  assert (E : (v >? v) = false) by (rewrite Z.gtb_ltb; apply Z.ltb_irrefl).
  rewrite E. now destruct (bool_decide _).
Qed.

Lemma decrement_in_run (v : Z) :
  a <= v <= b ->
  decrementContiguousMarkedVal s v = Ok (if decide (v = a) then a else v - 1).
Proof.
  intros Hv. rewrite decrement_point.
  destruct (decide (v = a)) as [-> | Hne].
  - now rewrite bool_decide_eq_false_2.
  - rewrite bool_decide_eq_true_2; [reflexivity |]. apply run_marked. lia.
Qed.

Lemma increment_in_run (v : Z) :
  a <= v <= b ->
  incrementContiguousMarkedVal s v = Ok (if decide (v = b) then b else v + 1).
Proof.
  intros Hv. rewrite increment_point.
  destruct (decide (v = b)) as [-> | Hne].
  - now rewrite bool_decide_eq_false_2.
  - rewrite bool_decide_eq_true_2; [reflexivity |]. apply run_marked. lia.
Qed.

Lemma start_loop_run (n : nat) (last_val dec_val : Z) :
  dec_val = a + Z.of_nat n -> dec_val <= b ->
  ((0 < n)%nat -> dec_val < last_val) ->
  start_loop s last_val dec_val = Ok a.
Proof.
  revert last_val dec_val.
  induction n as [| n IH]; intros last_val dec_val Hd Hb Hlt;
    rewrite start_loop_eq.
  - assert (dec_val = a) as -> by lia.
    destruct (decide _); [| reflexivity].
    rewrite decrement_in_run, bind_Ok by lia.
    destruct (decide (a = a)); [| contradiction].
    rewrite start_loop_eq. destruct (decide _); [lia | reflexivity].
  - assert (dec_val < last_val) by (apply Hlt; lia).
    destruct (decide _) as [_ | Hn]; [| lia].
    rewrite decrement_in_run, bind_Ok by lia.
    destruct (decide (dec_val = a)); [lia |].
    apply IH; lia.
Qed.

Lemma end_loop_run (n : nat) (last_val inc_val : Z) :
  inc_val = b - Z.of_nat n -> a <= inc_val ->
  ((0 < n)%nat -> inc_val > last_val) ->
  end_loop s last_val inc_val = Ok b.
Proof.
  revert last_val inc_val.
  induction n as [| n IH]; intros last_val inc_val Hd Ha Hlt;
    rewrite end_loop_eq.
  - assert (inc_val = b) as -> by lia.
    destruct (decide _); [| reflexivity].
    rewrite increment_in_run, bind_Ok by lia.
    destruct (decide (b = b)); [| contradiction].
    rewrite end_loop_eq. destruct (decide _); [lia | reflexivity].
  - assert (inc_val > last_val) by (apply Hlt; lia).
    destruct (decide _) as [_ | Hn]; [| lia].
    rewrite increment_in_run, bind_Ok by lia.
    destruct (decide (inc_val = b)); [lia |].
    apply IH; lia.
Qed.

(** X21: a run of marked values. When there are no track marks, every
    value from [a] to [b] is marked, [a - 1] and [b + 1] are not, and the
    run lies within the value range, then around any value [v] of the run
    [getStartContiguousMark] returns [a], [getEndContiguousMark] returns [b],
    and [contiguousSelectionMarksAroundVal(v)], from an even number of
    recorded endpoints, records the pair [a, b]; a run of a single value
    ([a = b]) leaves no selection. *)
Theorem contiguous_selection_of_run (v : Z) :
  a <= v <= b ->
  getStartContiguousMark s v = Ok a /\
  getEndContiguousMark s v = Ok b /\
  (Nat.even (length (_selection s)) = true ->
   exists s',
     contiguousSelectionMarksAroundVal s v = Ok s' /\
     _selection s' = (if a =? b then [] else _selection s ++ [a; b])).
Proof.
  intros Hv.
  assert (Hstart : getStartContiguousMark s v = Ok a).
  { unfold getStartContiguousMark.
    rewrite decrement_in_run, bind_Ok by exact Hv.
    destruct (decide (v = a)) as [-> | Hne].
    - apply (start_loop_run 0); lia.
    - apply (start_loop_run (Z.to_nat (v - 1 - a))); lia. }
  assert (Hend : getEndContiguousMark s v = Ok b).
  { unfold getEndContiguousMark.
    rewrite increment_in_run, bind_Ok by exact Hv.
    destruct (decide (v = b)) as [-> | Hne].
    - apply (end_loop_run 0); lia.
    - apply (end_loop_run (Z.to_nat (b - (v + 1)))); lia. }
  split; [exact Hstart |]. split; [exact Hend |].
  intros He. unfold contiguousSelectionMarksAroundVal.
  assert (Hmarked : isMarkedVal s v = Ok true).
  { unfold isMarkedVal. rewrite bool_decide_eq_true_2; [reflexivity |].
    now apply run_marked. }
  rewrite Hmarked, bind_Ok, Hstart, bind_Ok, Hend, bind_Ok. cbn [negb].
  unfold setSelection.
  destruct (endSelection_pair (startSelection s a) (_selection s) a b true)
    as (s' & Hs' & Hsel & _); [| exact He | eauto].
  cbn [startSelection _selection set_selection].
  now rewrite even_length_snoc, He.
Qed.

End PointRun.

Lemma contiguous_selection_of_run_witness :
  exists s',
    contiguousSelectionMarksAroundVal
      (set_marks {[ 1%positive := simple_mark 5; 2%positive := simple_mark 6;
                    3%positive := simple_mark 7; 4%positive := simple_mark 9 ]}
                 (init 0 100 0 199 200)) 6 = Ok s' /\
    _selection s' = (if 5 =? 7 then [] else [] ++ [5; 7]).
Proof.
  destruct (contiguous_selection_of_run
              (set_marks {[ 1%positive := simple_mark 5;
                            2%positive := simple_mark 6;
                            3%positive := simple_mark 7;
                            4%positive := simple_mark 9 ]}
                         (init 0 100 0 199 200)) 5 7) with (v := 6)
    as (_ & _ & H).
  - intros m Hm.
    match type of Hm with _ ∈ ?l =>
      remember l as l' eqn:El; vm_compute in El; subst l' end.
    rewrite !elem_of_cons in Hm.
    repeat (destruct Hm as [-> | Hm]; [discriminate |]).
    now apply elem_of_nil in Hm.
  - intros z Hz.
    match goal with |- _ ∈ ?l =>
      remember l as l' eqn:El; vm_compute in El; subst l' end.
    rewrite !elem_of_cons. lia.
  - match goal with |- _ ∉ ?l =>
      remember l as l' eqn:El; vm_compute in El; subst l' end.
    rewrite !elem_of_cons, elem_of_nil. lia.
  - match goal with |- _ ∉ ?l =>
      remember l as l' eqn:El; vm_compute in El; subst l' end.
    rewrite !elem_of_cons, elem_of_nil. lia.
  - cbn. lia.
  - cbn. lia.
  - lia.
  - apply H. reflexivity.
Defined.

(** ** Padding an image to a stride *)

Section PadToStride.

Import Images.

Context {V : Type} (zero : V).
Variables (image : Tensor3 V) (stride : Z).
Hypothesis stride_pos : 1 <= stride.
Hypothesis image_shaped : well_shaped image.

Let pad_bottom := (stride - dim0 image mod stride) mod stride.
Let pad_right := (stride - dim1 image mod stride) mod stride.
Let px0 := replicate (Z.to_nat (dim2 image)) zero.

Let padded : Tensor3 V :=
  {| dim0 := dim0 image + pad_bottom;
     dim1 := dim1 image + pad_right;
     dim2 := dim2 image;
     data := ((fun row => row ++ replicate (Z.to_nat pad_right) px0)
                <$> data image)
             ++ replicate (Z.to_nat pad_bottom)
                  (replicate (Z.to_nat (dim1 image + pad_right)) px0) |}.

Lemma pads_bounds :
  (0 <= pad_bottom < stride /\ (stride | dim0 image + pad_bottom)) /\
  (0 <= pad_right < stride /\ (stride | dim1 image + pad_right)).
Proof. split; apply pad_completes; exact stride_pos. Qed.

Lemma pad_to_stride_eq :
  pad_to_stride zero image stride
  = Ok (if (pad_bottom >? 0) || (pad_right >? 0) then padded else image).
Proof.
  destruct pads_bounds as [[Hb _] [Hr _]].
  unfold pad_to_stride, Resizing.find_padding_for_stride.
  rewrite !py_mod_pos by lia. cbn [mbind result_bind mret result_ret].
  rewrite !py_mod_pos by lia. cbn [mbind result_bind mret result_ret].
  fold pad_bottom pad_right.
  destruct ((pad_bottom >? 0) || (pad_right >? 0)); [| reflexivity].
  unfold tf_pad.
  destruct (Z.ltb_spec pad_bottom 0); [lia |].
  destruct (Z.ltb_spec pad_right 0); [lia |]. reflexivity.
Qed.

Lemma padded_shaped : well_shaped padded.
Proof.
  destruct image_shaped as (Hw & Hc & Hlen & Hrows).
  destruct pads_bounds as [[Hb _] [Hr _]].
  unfold well_shaped, padded. cbn [dim0 dim1 dim2 data].
  split; [lia |]. split; [exact Hc |]. split.
  - rewrite length_app, length_fmap, length_replicate. lia.
  - intros row Hrow. apply elem_of_app in Hrow as [Hrow | Hrow].
    + apply list_elem_of_fmap in Hrow as (row0 & -> & Hrow0).
      destruct (Hrows row0 Hrow0) as [Hl Hpx]. split.
      * rewrite length_app, length_replicate. lia.
      * intros px Hin. apply elem_of_app in Hin as [Hin | Hin];
          [now apply Hpx |].
        apply elem_of_replicate in Hin as [-> _].
        unfold px0. rewrite length_replicate. lia.
    + apply elem_of_replicate in Hrow as [-> _]. split.
      * rewrite length_replicate. lia.
      * intros px Hin. apply elem_of_replicate in Hin as [-> _].
        unfold px0. rewrite length_replicate. lia.
Qed.

(** X22: for a well-shaped image and a stride of at least 1,
    [pad_to_stride] returns a well-shaped image whose height and width are
    the smallest multiples of the stride that are not below those of the
    image, with the same number of channels. *)
Theorem pad_to_stride_shape :
  exists out,
    pad_to_stride zero image stride = Ok out /\
    well_shaped out /\
    (stride | dim0 out) /\ dim0 image <= dim0 out < dim0 image + stride /\
    (stride | dim1 out) /\ dim1 image <= dim1 out < dim1 image + stride /\
    dim2 out = dim2 image.
Proof.
  destruct pads_bounds as [[Hb Db] [Hr Dr]].
  eexists. split; [apply pad_to_stride_eq |].
  destruct (Z.gtb_spec pad_bottom 0) as [Hpb | Hpb];
    destruct (Z.gtb_spec pad_right 0) as [Hpr | Hpr]; cbn [orb];
    try (split; [apply padded_shaped |]; unfold padded;
         cbn [dim0 dim1 dim2]; repeat split; try assumption; lia).
  assert (pad_bottom = 0) as E0 by lia.
  assert (pad_right = 0) as E1 by lia.
  rewrite E0, Z.add_0_r in Db. rewrite E1, Z.add_0_r in Dr.
  split; [exact image_shaped |]. repeat split; try assumption; lia.
Qed.

Lemma lookup_px0 (k : nat) :
  Z.of_nat k < dim2 image -> px0 !! k = Some zero.
Proof. intros Hk. apply lookup_replicate_2. lia. Qed.

(** X23: what [pad_to_stride] returns holds the image in its upper left
    corner and the fill value everywhere else: an entry within the shape of
    the image is the entry of the image, and an entry within the shape of
    the result below the last row or right of the last column of the image
    is the fill value. *)
Theorem pad_to_stride_content :
  exists out,
    pad_to_stride zero image stride = Ok out /\
    (forall i j k : nat,
       Z.of_nat i < dim0 image -> Z.of_nat j < dim1 image ->
       at_index out i j k = at_index image i j k) /\
    (forall i j k : nat,
       Z.of_nat i < dim0 out -> Z.of_nat j < dim1 out ->
       Z.of_nat k < dim2 out ->
       dim0 image <= Z.of_nat i \/ dim1 image <= Z.of_nat j ->
       at_index out i j k = Some zero).
Proof.
  destruct image_shaped as (Hw & Hc & Hlen & Hrows).
  destruct pads_bounds as [[Hb _] [Hr _]].
  eexists. split; [apply pad_to_stride_eq |].
  destruct ((pad_bottom >? 0) || (pad_right >? 0)).
  - split.
    + intros i j k Hi Hj. unfold at_index, padded. cbn [data].
      destruct (data image !! i) as [row |] eqn:Hrow.
      * rewrite lookup_app_l by (rewrite length_fmap; lia).
        rewrite list_lookup_fmap, Hrow. cbn.
        destruct (Hrows row) as [Hl _];
          [now apply list_elem_of_lookup_2 in Hrow |].
        rewrite lookup_app_l by lia. reflexivity.
      * apply lookup_ge_None in Hrow. lia.
    + intros i j k Hi Hj Hk Hout. unfold at_index, padded in *.
      cbn [data dim0 dim1 dim2] in *.
      destruct (data image !! i) as [row |] eqn:Hrow.
      * pose proof (lookup_lt_Some _ _ _ Hrow) as Hlt.
        rewrite lookup_app_l by (rewrite length_fmap; lia).
        rewrite list_lookup_fmap, Hrow. cbn.
        destruct (Hrows row) as [Hl _];
          [now apply list_elem_of_lookup_2 in Hrow |].
        rewrite lookup_app_r by lia.
        rewrite lookup_replicate_2 by lia. cbn. now apply lookup_px0.
      * apply lookup_ge_None in Hrow.
        rewrite lookup_app_r by (rewrite length_fmap; lia).
        rewrite length_fmap, lookup_replicate_2 by lia. cbn.
        rewrite lookup_replicate_2 by lia. cbn. now apply lookup_px0.
  - split; [reflexivity |]. intros i j k Hi Hj _ Hout. lia.
Qed.

(** X24: [pad_to_stride] twice is [pad_to_stride] once, and an image whose
    height and width are multiples of the stride is returned as it is. *)
Theorem pad_to_stride_idempotent :
  exists out,
    pad_to_stride zero image stride = Ok out /\
    pad_to_stride zero out stride = Ok out /\
    ((stride | dim0 image) -> (stride | dim1 image) -> out = image).
Proof.
  destruct pads_bounds as [[Hb Db] [Hr Dr]].
  assert (Hfix : forall t : Tensor3 V,
            (stride | dim0 t) -> (stride | dim1 t) ->
            pad_to_stride zero t stride = Ok t).
  { intros t [q0 E0] [q1 E1].
    unfold pad_to_stride, Resizing.find_padding_for_stride.
    rewrite !py_mod_pos by lia. cbn [mbind result_bind mret result_ret].
    rewrite !py_mod_pos by lia. cbn [mbind result_bind mret result_ret].
    rewrite E0, E1, !Z_mod_mult, !Z.sub_0_r, !Z_mod_same_full.
    reflexivity. }
  eexists. split; [apply pad_to_stride_eq |].
  destruct (Z.gtb_spec pad_bottom 0) as [Hpb | Hpb];
    destruct (Z.gtb_spec pad_right 0) as [Hpr | Hpr]; cbn [orb].
  1-3: split; [now apply Hfix |]; intros [q0 E0] [q1 E1]; exfalso;
       unfold pad_bottom, pad_right in *;
       rewrite ?E0, ?E1, ?Z_mod_mult, ?Z.sub_0_r, ?Z_mod_same_full in *; lia.
  assert (pad_bottom = 0) as E0 by lia.
  assert (pad_right = 0) as E1 by lia.
  rewrite E0, Z.add_0_r in Db. rewrite E1, Z.add_0_r in Dr.
  split; [now apply Hfix | reflexivity].
Qed.

End PadToStride.

Lemma sample_image_shaped : Images.well_shaped Images.sample_image.
Proof.
  unfold Images.well_shaped. cbn.
  split; [lia |]. split; [lia |]. split; [reflexivity |].
  intros row Hrow. rewrite !elem_of_cons, elem_of_nil in Hrow.
  destruct Hrow as [-> | [-> | []]]; (split; [reflexivity |]);
    intros px Hpx; rewrite !elem_of_cons, elem_of_nil in Hpx;
    destruct Hpx as [-> | [-> | [-> | []]]]; reflexivity.
Qed.

Lemma pad_to_stride_shape_witness :
  exists out,
    Images.pad_to_stride 0 Images.sample_image 4 = Ok out /\
    Images.dim0 out = 4 /\ Images.dim1 out = 4 /\ Images.dim2 out = 1 /\
    Images.data out =
      [[[1]; [2]; [3]; [0]]; [[4]; [5]; [6]; [0]];
       [[0]; [0]; [0]; [0]]; [[0]; [0]; [0]; [0]]] /\
    Images.well_shaped out.
Proof.
  destruct (pad_to_stride_shape 0 Images.sample_image 4)
    as (out & Hout & Hws & _).
  - lia.
  - exact sample_image_shaped.
  - exists out. split; [exact Hout |].
    vm_compute in Hout. injection Hout as <-.
    repeat (split; [reflexivity |]). exact Hws.
Defined.

Lemma pad_to_stride_content_witness :
  exists out,
    Images.pad_to_stride 0 Images.sample_image 4 = Ok out /\
    Images.at_index out 1 2 0 = Images.at_index Images.sample_image 1 2 0 /\
    Images.at_index out 3 1 0 = Some 0.
Proof.
  destruct (pad_to_stride_content 0 Images.sample_image 4)
    as (out & Hout & Hin & Hfill).
  - lia.
  - exact sample_image_shaped.
  - exists out. split; [exact Hout |]. split.
    + apply Hin; cbn; lia.
    + vm_compute in Hout. injection Hout as <-.
      apply Hfill; cbn; lia.
Defined.

Lemma pad_to_stride_idempotent_witness :
  exists out,
    Images.pad_to_stride 0 Images.sample_image 4 = Ok out /\
    Images.pad_to_stride 0 out 4 = Ok out.
Proof.
  destruct (pad_to_stride_idempotent 0 Images.sample_image 4)
    as (out & Hout & Hagain & _).
  - lia.
  - exists out. split; [exact Hout | exact Hagain].
Defined.

(** ** Replacing the marks *)

Section SetMarks.

(** The marks lie within the bounds [lo] and [hi] of the widget, the marks
    that have an item are those of the mark set, and only they have a
    label. *)
Let tidy (lo hi : Z) (s : VideoSlider) : Prop :=
  _val_min s = lo /\ _val_max s = hi /\
  (forall id m, _marks s !! id = Some m -> lo <= val m <= hi) /\
  dom (_mark_items s) = dom (_marks s) /\
  dom (_mark_labels s) ⊆ dom (_marks s).

Lemma foldlM_r_invariant {A B} (f : A -> B -> result A) (P : A -> Prop)
    (l : list B) (a a' : A) :
  (forall a x a', f a x = Ok a' -> P a -> P a') ->
  foldlM_r f a l = Ok a' -> P a -> P a'.
Proof.
  intros Hf. revert a. induction l as [| x l IH]; intros a H Ha; cbn in H.
  - now injection H as <-.
  - destruct (f a x) as [a1 |] eqn:Hx; [rewrite bind_Ok in H | discriminate H].
    apply (IH a1 H). now apply (Hf a x).
Qed.

Lemma addMark_tidy (lo hi : Z) (s s' : VideoSlider)
    (new_mark : positive * SliderMark) (update : bool) :
  addMark s new_mark update = Ok s' -> tidy lo hi s -> tidy lo hi s'.
Proof.
  destruct new_mark as [id m]. intros H (Hlo & Hhi & Hin & Hi & Hl).
  unfold tidy.
  destruct (addMark_spec _ _ _ _ _ H)
    as (Hlo' & Hhi' & _ & _ & _ & _ & _ & Hcase).
  destruct Hcase as [(Hv & Hm & Hdi & Hml) | (_ & ->)];
    [| exact (conj Hlo (conj Hhi (conj Hin (conj Hi Hl))))].
  split; [congruence |]. split; [congruence |]. split; [| split].
  - intros j mj Hj. rewrite Hm in Hj.
    destruct (decide (id = j)) as [-> | Hne].
    + rewrite lookup_insert_eq in Hj. injection Hj as <-. lia.
    + rewrite lookup_insert_ne in Hj by exact Hne. now apply (Hin j).
  - rewrite Hdi, Hm, dom_insert_L, Hi. reflexivity.
  - rewrite Hml, Hm, dom_insert_L.
    destruct (bool_decide (type m = Tick)); [rewrite dom_insert_L |];
      set_solver.
Qed.

Lemma _add_tick_marks_tidy (lo hi : Z) (s s' : VideoSlider) :
  _add_tick_marks s = Ok s' -> tidy lo hi s -> tidy lo hi s'.
Proof.
  unfold _add_tick_marks. intros H Hs.
  destruct (slider_visible_value_range s) as [vr |];
    [rewrite bind_Ok in H | discriminate H].
  destruct (py_range _ _ _) as [positions |];
    [rewrite bind_Ok in H | discriminate H].
  cbv zeta in H.
  eapply (foldlM_r_invariant _ (tidy lo hi)); [| exact H | exact Hs].
  intros a x a' Ha Pa. exact (addMark_tidy _ _ _ _ _ _ Ha Pa).
Qed.

(** X25: whenever [setMarks] returns, whatever marks it was given, the
    bounds are as before, every mark of the mark set lies within them, the
    marks that have an item are exactly those of the mark set, and only
    marks of the mark set have a label. *)
Theorem setMarks_tidy
    (s s' : VideoSlider) (marks : option (list MarkArg)) :
  setMarks s marks = Ok s' ->
  _val_min s' = _val_min s /\ _val_max s' = _val_max s /\
  (forall id m, _marks s' !! id = Some m ->
     _val_min s <= val m <= _val_max s) /\
  dom (_mark_items s') = dom (_marks s') /\
  dom (_mark_labels s') ⊆ dom (_marks s').
Proof.
  unfold setMarks. intros H.
  assert (H0 : tidy (_val_min s) (_val_max s) (clearMarks s)).
  { unfold tidy. split; [reflexivity |]. split; [reflexivity |].
    split; [| split; [reflexivity |]].
    - intros id m Hm. cbn in Hm. now rewrite lookup_empty in Hm.
    - cbn. now rewrite dom_empty_L. }
  destruct (_add_tick_marks (clearMarks s)) as [s1 |] eqn:H1;
    [rewrite bind_Ok in H | discriminate H].
  apply (_add_tick_marks_tidy _ _ _ _ H1) in H0.
  assert (H2 : exists s2, tidy (_val_min s) (_val_max s) s2 /\
                          updatePos s2 = Ok s').
  { destruct marks as [marks |].
    - destruct (foldlM_r _ s1 marks) as [s2 |] eqn:Hf;
        [rewrite bind_Ok in H | discriminate H].
      exists s2. split; [| exact H].
      eapply (foldlM_r_invariant _ (tidy (_val_min s) (_val_max s)));
        [| exact Hf | exact H0].
      intros a [mark | v] a' Ha Pa.
      + exact (addMark_tidy _ _ _ _ _ _ Ha Pa).
      + apply (addMark_tidy _ _ _ _ _ _ Ha). exact Pa.
    - rewrite bind_Ok in H. eauto. }
  destruct H2 as (s2 & (Hlo & Hhi & Hin & Hi & Hl) & Hup).
  destruct (updatePos_spec _ _ Hup)
    as (Hm' & Hl' & Hlo' & Hhi' & _ & _ & _ & _ & _ & _ & Hdom' & _).
  rewrite Hm', Hl', Hdom', Hlo', Hhi'.
  exact (conj Hlo (conj Hhi (conj Hin (conj Hi Hl)))).
Qed.

Lemma setMarks_tidy_witness :
  exists s',
    setMarks (init 0 100 0 199 200)
             (Some [RawValue 10; RawValue 300;
                    GivenMark (9%positive, track_mark 20 30 0)]) = Ok s' /\
    _val_min s' = 0 /\ _val_max s' = 100 /\
    (forall id m, _marks s' !! id = Some m -> 0 <= val m <= 100) /\
    dom (_mark_items s') = dom (_marks s') /\
    dom (_mark_labels s') ⊆ dom (_marks s').
Proof.
  eexists.
  match goal with
  | |- setMarks ?s ?marks = Ok ?s' /\ _ =>
      assert (H : setMarks s marks = Ok s') by (vm_compute; reflexivity);
      split; [exact H |];
      exact (setMarks_tidy s s' marks H)
  end.
Defined.

Lemma foldlM_r_invariant_in {A B} (f : A -> B -> result A) (P : A -> Prop)
    (l : list B) (a a' : A) :
  (forall a x a', x ∈ l -> f a x = Ok a' -> P a -> P a') ->
  foldlM_r f a l = Ok a' -> P a -> P a'.
Proof.
  revert a. induction l as [| x l IH]; intros a Hf H Ha; cbn in H.
  - now injection H as <-.
  - destruct (f a x) as [a1 |] eqn:Hx; [rewrite bind_Ok in H | discriminate H].
    apply (IH a1); [| exact H |].
    + intros b y b' Hy. apply Hf. now right.
    + apply (Hf a x); [left | exact Hx | exact Ha].
Qed.









End SetMarks.

(** ** Renewing the tick marks *)

Section TickRenewal.

Lemma _clear_tick_marks_spec (l : list (positive * SliderMark))
    (s : VideoSlider) :
  let s' := foldl (fun s mark => removeMark s mark.1) s l in
  (forall id, _marks s' !! id
              = if decide (id ∈ l.*1) then None else _marks s !! id) /\
  _box_rect s' = _box_rect s /\ handle_width s' = handle_width s /\
  _val_min s' = _val_min s /\ _val_max s' = _val_max s /\
  widget_width s' = widget_width s /\ next_id s' = next_id s.
Proof.
  revert s. induction l as [| [id0 m0] l IH]; intros s; cbn zeta.
  - split; [| repeat split; reflexivity].
    intros id. destruct (decide (id ∈ [])) as [H | _]; [| reflexivity].
    now apply elem_of_nil in H.
  - cbn [foldl fst]. destruct (IH (removeMark s id0))
      as (Hl & Hb & Hh & Hlo & Hhi & Hw & Hn).
    split; [| repeat split; assumption].
    intros id. rewrite Hl. cbn [fmap list_fmap fst].
    cbn [removeMark _marks set_marks set_mark_items set_mark_labels].
    destruct (decide (id ∈ l.*1)) as [Hin | Hout].
    + rewrite decide_True by (now right). reflexivity.
    + destruct (decide (id = id0)) as [-> | Hne].
      * rewrite decide_True by left. apply lookup_delete_eq.
      * rewrite decide_False
          by (intros H; apply elem_of_cons in H as [? | ?]; contradiction).
        now apply lookup_delete_ne.
Qed.

(** X27: whenever [setTickMarks] returns, the marks are as before except
    under the identities of the old and of the new tick marks: an old tick
    mark is gone and any other mark is kept. *)
Theorem setTickMarks_keeps_other_marks (s s' : VideoSlider) :
  setTickMarks s = Ok s' ->
  forall id, id ∉ (_tick_marks s').*1 ->
    _marks s' !! id
    = if decide (id ∈ (_tick_marks s).*1) then None else _marks s !! id.
Proof.
  unfold setTickMarks, _clear_tick_marks. intros H.
  destruct (_clear_tick_marks_spec (_tick_marks s) s) as (Hclear & _).
  cbv zeta in Hclear.
  set (s0 := foldl (fun s mark => removeMark s mark.1) s (_tick_marks s)) in *.
  unfold _add_tick_marks in H.
  destruct (slider_visible_value_range s0) as [vr |];
    [rewrite bind_Ok in H | discriminate H].
  destruct (py_range _ _ _) as [positions |];
    [rewrite bind_Ok in H | discriminate H].
  cbv zeta in H.
  set (ticks := new_marks (next_id s0) (tick_mark <$> positions)) in *.
  set (s2 := set_next_id (Nat.iter (length ticks) Pos.succ (next_id s0))
               (set_tick_marks ticks s0)) in *.
  change (_tick_marks s2) with ticks in H.
  assert (HP : _tick_marks s' = ticks /\
               forall id, id ∉ ticks.*1 -> _marks s' !! id = _marks s0 !! id).
  { apply (foldlM_r_invariant_in
             (fun s tick_mark => addMark s tick_mark false)
             (fun a => _tick_marks a = ticks /\
                forall id, id ∉ ticks.*1 -> _marks a !! id = _marks s0 !! id)
             ticks s2 s'); [| exact H | split; reflexivity].
    intros a [id0 m0] a' Hx Ha (Ht & Hkeep).
    destruct (addMark_spec _ _ _ _ _ Ha)
      as (_ & _ & _ & _ & Ht' & _ & _ & Hcase).
    split; [congruence |].
    destruct Hcase as [(_ & Hm & _) | (_ & ->)]; [| exact Hkeep].
    intros id Hid. rewrite Hm, lookup_insert_ne; [now apply Hkeep |].
    intros <-. apply Hid. apply list_elem_of_fmap. exists (id0, m0). auto. }
  destruct HP as (Ht & Hkeep). rewrite Ht.
  intros id Hid. rewrite (Hkeep id Hid). apply Hclear.
Qed.

Lemma setTickMarks_keeps_other_marks_witness :
  exists s',
    setTickMarks (set_tick_marks [(50%positive, tick_mark 9)]
                    (set_marks {[ 50%positive := tick_mark 9;
                                  51%positive := simple_mark 4 ]}
                               (init 0 100 0 199 200))) = Ok s' /\
    _marks s' !! 51%positive = Some (simple_mark 4) /\
    _marks s' !! 50%positive = None.
Proof.
  eexists.
  match goal with
  | |- setTickMarks ?s = Ok ?s' /\ _ =>
      assert (H : setTickMarks s = Ok s') by (vm_compute; reflexivity);
      split; [exact H |];
      pose proof (setTickMarks_keeps_other_marks s s' H) as Hkeep
  end.
  split.
  - rewrite (Hkeep 51%positive); [reflexivity |].
    match goal with |- _ ∉ ?l =>
      remember l as l' eqn:El; vm_compute in El; subst l' end.
    rewrite !elem_of_cons, elem_of_nil. lia.
  - rewrite (Hkeep 50%positive); [reflexivity |].
    match goal with |- _ ∉ ?l =>
      remember l as l' eqn:El; vm_compute in El; subst l' end.
    rewrite !elem_of_cons, elem_of_nil. lia.
Defined.

(** X28: on a widget whose visible width is zero, everything that converts
    a pixel position to a value raises [ZeroDivisionError]: [moveHandle],
    [moveSelectionAnchor], [releaseSelectionAnchor], the visible value range,
    and with it [_add_tick_marks], [setTickMarks] and [setMarks]. *)
Theorem zero_width_raises
    (s : VideoSlider) (x y : Q) (marks : option (list MarkArg)) :
  (_sliderWidth s == 0)%Q ->
  moveHandle s x y = Raise ZeroDivisionError /\
  moveSelectionAnchor s x y = Raise ZeroDivisionError /\
  releaseSelectionAnchor s x y = Raise ZeroDivisionError /\
  slider_visible_value_range s = Raise ZeroDivisionError /\
  _add_tick_marks s = Raise ZeroDivisionError /\
  setTickMarks s = Raise ZeroDivisionError /\
  setMarks s marks = Raise ZeroDivisionError.
Proof.
  intros HW.
  assert (Hs : forall s0 : VideoSlider,
            _box_rect s0 = _box_rect s -> handle_width s0 = handle_width s ->
            forall x0 c, _toVal s0 x0 c = Raise ZeroDivisionError).
  { intros s0 Hb Hh x0 c. apply _toVal_zero_width.
    unfold _sliderWidth in *. now rewrite Hb, Hh. }
  assert (Hadd : forall s0 : VideoSlider,
            _box_rect s0 = _box_rect s -> handle_width s0 = handle_width s ->
            _add_tick_marks s0 = Raise ZeroDivisionError).
  { intros s0 Hb Hh. unfold _add_tick_marks, slider_visible_value_range.
    rewrite Hs by assumption. reflexivity. }
  split; [unfold moveHandle; rewrite !Hs by reflexivity; reflexivity |].
  split;
    [unfold moveSelectionAnchor; rewrite Hs by reflexivity; reflexivity |].
  split;
    [unfold releaseSelectionAnchor; rewrite Hs by reflexivity; reflexivity |].
  split; [unfold slider_visible_value_range; now apply Hs |].
  split; [now apply Hadd |]. split.
  - unfold setTickMarks, _clear_tick_marks.
    destruct (_clear_tick_marks_spec (_tick_marks s) s) as (_ & Hb & Hh & _).
    now apply Hadd.
  - unfold setMarks. rewrite Hadd by reflexivity. reflexivity.
Qed.

Lemma zero_width_raises_witness :
  moveHandle (init 0 100 0 6 8) 3 0 = Raise ZeroDivisionError /\
  moveSelectionAnchor (init 0 100 0 6 8) 3 0 = Raise ZeroDivisionError /\
  releaseSelectionAnchor (init 0 100 0 6 8) 3 0 = Raise ZeroDivisionError /\
  slider_visible_value_range (init 0 100 0 6 8) = Raise ZeroDivisionError /\
  _add_tick_marks (init 0 100 0 6 8) = Raise ZeroDivisionError /\
  setTickMarks (init 0 100 0 6 8) = Raise ZeroDivisionError /\
  setMarks (init 0 100 0 6 8) (Some [RawValue 10]) = Raise ZeroDivisionError.
Proof.
  apply (zero_width_raises (init 0 100 0 6 8) 3 0 (Some [RawValue 10])).
  reflexivity.
Defined.

End TickRenewal.
